(** * Meltano runtime environments: [meltano/core/environment.py]

    A shallow embedding of the three classes of the module
    ([EnvironmentPluginConfig], [EnvironmentConfig], [Environment]) over an
    explicit Python object store, and the properties of the specification
    proved about it. *)

From Stdlib Require Import ZArith Lia.
From stdpp Require Import base option list strings gmap.

Local Open Scope string_scope.
Local Open Scope list_scope.

(** ** Python values and the object store *)

(** Objects live in a store and are named by their address; [dict] and
    [list] objects are mutable and may be shared, everything else is an
    immutable atom.  YAML floats are not part of the model. *)
Abbreviation loc := nat.

Inductive val :=
| VNone
| VBool (b : bool)
| VInt (z : Z)
| VStr (s : string)
| VRef (l : loc).

(** A [dict] keeps its items in insertion order; the dicts of this module
    come from a YAML document or from keyword arguments, so their keys are
    strings. *)
Inductive obj :=
| ODict (items : list (string * val))
| OList (elems : list val).

Abbreviation heap := (list obj).

#[global] Instance val_eq_dec : EqDecision val.
Proof. solve_decision. Defined.

#[global] Instance obj_eq_dec : EqDecision obj.
Proof. solve_decision. Defined.

(** ** Insertion-ordered dictionaries *)

Section PyDict.
Context {K V : Type} `{EqDecision K}.

(** [d.get(k)] *)
Fixpoint dict_get (k : K) (d : list (K * V)) : option V :=
  match d with
  | [] => None
  | (k', v) :: d' => if decide (k = k') then Some v else dict_get k d'
  end.

(** [d[k] = v]: an existing key keeps its position, a new key goes last. *)
Fixpoint dict_set (k : K) (v : V) (d : list (K * V)) : list (K * V) :=
  match d with
  | [] => [(k, v)]
  | (k', v') :: d' =>
      if decide (k = k') then (k', v) :: d' else (k', v') :: dict_set k v d'
  end.

(** [d.update(e)], the items of [e] written in their order. *)
Definition dict_update (d e : list (K * V)) : list (K * V) :=
  fold_left (fun acc kv => dict_set kv.1 kv.2 acc) e d.

Definition dict_keys (d : list (K * V)) : list K := d.*1.

(** Keys of a dict are pairwise distinct. *)
Definition dict_wfb (d : list (K * V)) : bool := bool_decide (NoDup (dict_keys d)).
End PyDict.

(** ** Outcomes of a run *)

Inductive exn :=
| ValueError (raw : string)       (* [PluginType(raw)]: not a valid PluginType *)
| TypeError (msg : string)
| AttributeError (attr : string).

(** [Undef] marks a run that leaves the model: a reference to an address
    that holds no object, or a plugin [name] that is not a [str] (the
    signature says [name: str], and what happens to other values is decided
    by [PluginRef] and [Canonical], outside this module). *)
Inductive outcome (A : Type) :=
| Ok (a : A) (h : heap)
| Raise (e : exn)
| Undef.
Arguments Ok {A} a h.
Arguments Raise {A} e.
Arguments Undef {A}.

Definition M (A : Type) : Type := heap -> outcome A.

Definition ret {A} (a : A) : M A := fun h => Ok a h.

Definition bind {A B} (m : M A) (k : A -> M B) : M B :=
  fun h => match m h with
           | Ok a h' => k a h'
           | Raise e => Raise e
           | Undef => Undef
           end.

Definition raise {A} (e : exn) : M A := fun _ => Raise e.
Definition undef {A} : M A := fun _ => Undef.

Declare Scope py_scope.
Delimit Scope py_scope with py.
Notation "x <- m ;; k" := (bind m (fun x => k))
  (at level 100, m at next level, right associativity) : py_scope.
Local Open Scope py_scope.

(** Allocation of a new object: the next free address. *)
Definition alloc (o : obj) : M loc := fun h => Ok (length h) (h ++ [o]).

(** Reading the object behind an address. *)
Definition deref (l : loc) : M obj :=
  fun h => match h !! l with
           | Some o => Ok o h
           | None => Undef
           end.

(** Truth value of a Python object ([bool(x)]). *)
Definition truthy (v : val) : M bool :=
  match v with
  | VNone => ret false
  | VBool b => ret b
  | VInt z => ret (negb (z =? 0)%Z)
  | VStr s => ret (negb (String.eqb s ""))
  | VRef l =>
      o <- deref l ;;
      match o with
      | ODict items => ret (negb (bool_decide (items = [])))
      | OList elems => ret (negb (bool_decide (elems = [])))
      end
  end.

(** [x or {}] *)
Definition or_empty_dict (v : val) : M val :=
  b <- truthy v ;;
  if b : bool then ret v else (l <- alloc (ODict []) ;; ret (VRef l)).

(** ** [copy.deepcopy] *)

(** [y[k] = v] and [y.append(v)] on the object at address [l]. *)
Definition store_setitem (l : loc) (k : string) (v : val) (h : heap) : option heap :=
  match h !! l with
  | Some (ODict items) => Some (<[l := ODict (dict_set k v items)]> h)
  | _ => None
  end.

Definition store_append (l : loc) (v : val) (h : heap) : option heap :=
  match h !! l with
  | Some (OList elems) => Some (<[l := OList (elems ++ [v])]> h)
  | _ => None
  end.

(** State of one [deepcopy] call: the store and the [memo] dictionary, which
    maps the address of every object entered so far to that of its copy. *)
Abbreviation copy_state := (heap * gmap loc loc)%type.

Section Fill.
(** The two loops of [_deepcopy_dict] and [_deepcopy_list], over the
    components of the object being copied, with the recursive copier
    [copy] and the address [y] of the object being filled. *)
Variable copy : val -> copy_state -> option (val * copy_state).
Variable y : loc.

Fixpoint fill_dict (items : list (string * val)) (st : copy_state)
  : option copy_state :=
  match items with
  | [] => Some st
  | (key, value) :: rest =>
      match copy value st with
      | None => None
      | Some (value', st') =>
          match store_setitem y key value' st'.1 with
          | None => None
          | Some h' => fill_dict rest (h', st'.2)
          end
      end
  end.

Fixpoint fill_list (elems : list val) (st : copy_state) : option copy_state :=
  match elems with
  | [] => Some st
  | a :: rest =>
      match copy a st with
      | None => None
      | Some (a', st') =>
          match store_append y a' st'.1 with
          | None => None
          | Some h' => fill_list rest (h', st'.2)
          end
      end
  end.
End Fill.

(** The copier of the standard library: atoms are returned as they are; a
    [dict] or [list] already in [memo] yields its recorded copy; otherwise a
    new empty object is allocated, recorded in [memo] before its components
    are copied (which is what makes shared and cyclic structures work), and
    filled one component at a time.  Keys are strings, hence their own
    copy.  [fuel] bounds the depth of nested objects entered. *)
Fixpoint deepcopy_memo (fuel : nat) (x : val) (st : copy_state)
  : option (val * copy_state) :=
  match x with
  | VRef l =>
      match st.2 !! l with
      | Some y => Some (VRef y, st)
      | None =>
          match fuel with
          | O => None
          | S fuel' =>
              let y := length st.1 in
              match st.1 !! l with
              | None => None
              | Some (ODict items) =>
                  match fill_dict (deepcopy_memo fuel') y items
                          (st.1 ++ [ODict []], <[l := y]> st.2) with
                  | None => None
                  | Some st' => Some (VRef y, st')
                  end
              | Some (OList elems) =>
                  match fill_list (deepcopy_memo fuel') y elems
                          (st.1 ++ [OList []], <[l := y]> st.2) with
                  | None => None
                  | Some st' => Some (VRef y, st')
                  end
              end
          end
      end
  | _ => Some (x, st)
  end.

(** [copy.deepcopy(x)]: a fresh memo, and one unit of fuel per object of the
    store, which is enough for every store without dangling references
    ([deepcopy_contract] below). *)
Definition deepcopy (x : val) : M val :=
  fun h => match deepcopy_memo (S (length h)) x (h, ∅) with
           | Some (y, st) => Ok y st.1
           | None => Undef
           end.

(** ** Well-formed stores and the value behind a reference *)

Definition obj_vals (o : obj) : list val :=
  match o with
  | ODict items => items.*2
  | OList elems => elems
  end.

(** A value of a store with [n] objects: an atom, or a reference to one of
    them. *)
Definition val_ok (n : nat) (v : val) : Prop :=
  match v with
  | VRef l => l < n
  | _ => True
  end.

#[global] Instance val_ok_dec n v : Decision (val_ok n v).
Proof. destruct v; simpl; apply _. Defined.

Definition obj_wf (o : obj) : Prop :=
  match o with
  | ODict items => NoDup (dict_keys items)
  | OList _ => True
  end.

#[global] Instance obj_wf_dec o : Decision (obj_wf o).
Proof. destruct o; simpl; apply _. Defined.

(** The stores the interpreter can produce: no dangling reference, and no
    dict with a repeated key. *)
Definition store_wf (h : heap) : Prop :=
  Forall (fun o => obj_wf o ∧ Forall (val_ok (length h)) (obj_vals o)) h.

#[global] Instance store_wf_dec h : Decision (store_wf h).
Proof. unfold store_wf. apply _. Defined.

(** What a program sees of a value by reading through references, down to a
    given depth: two values with the same [view] at every depth cannot be
    told apart by reads. *)
#[warnings="-register-all"]
Inductive tree :=
| TNone
| TBool (b : bool)
| TInt (z : Z)
| TStr (s : string)
| TDict (items : list (string * tree))
| TList (elems : list tree)
| TCut.

Fixpoint view (depth : nat) (h : heap) (v : val) : tree :=
  match v with
  | VNone => TNone
  | VBool b => TBool b
  | VInt z => TInt z
  | VStr s => TStr s
  | VRef l =>
      match depth with
      | O => TCut
      | S depth' =>
          match h !! l with
          | None => TCut
          | Some (ODict items) =>
              TDict ((fun kv => (kv.1, view depth' h kv.2)) <$> items)
          | Some (OList elems) => TList (view depth' h <$> elems)
          end
      end
  end.

(** ** Argument passing *)

(** [**v]: the items of the mapping [v], as keyword arguments. *)
Definition kwargs_of (v : val) : M (list (string * val)) :=
  match v with
  | VRef l =>
      o <- deref l ;;
      match o with
      | ODict items => ret items
      | OList _ => raise (TypeError "argument after ** must be a mapping")
      end
  | _ => raise (TypeError "argument after ** must be a mapping")
  end.

(** [iter(v)]: a list yields its elements, a dict its keys, a string its
    characters; the other atoms are not iterable. *)
Definition iter_values (v : val) : M (list val) :=
  match v with
  | VRef l =>
      o <- deref l ;;
      match o with
      | OList elems => ret elems
      | ODict items => ret (VStr <$> dict_keys items)
      end
  | VStr s => ret ((fun c => VStr (String c "")) <$> String.list_ascii_of_string s)
  | _ => raise (TypeError "object is not iterable")
  end.

(** In-place [d.update(e)] of the dict at address [l]. *)
Definition update_at (l : loc) (e : list (string * val)) : M unit :=
  fun h => match h !! l with
           | Some (ODict d) => Ok tt (<[l := ODict (dict_update d e)]> h)
           | _ => Undef
           end.

(** The keyword arguments that match no parameter of
    [EnvironmentPluginConfig.__init__], which [**extras] collects, and the
    value bound to [config], [None] by default. *)
Definition extras_arg (kwargs : list (string * val)) : list (string * val) :=
  filter (fun kv => kv.1 ≠ "name" ∧ kv.1 ≠ "config") kwargs.

Definition config_arg (kwargs : list (string * val)) : val :=
  default VNone (dict_get "config" kwargs).

(** The item [f"_{key}": value] that [extra_config] makes of an item of
    [extras]. *)
Definition underscore (kv : string * val) : string * val := ("_" +:+ kv.1, kv.2).

(** An outcome with its store replaced: what a read returns in a larger
    store. *)
Definition retag {A} (o : outcome A) (h : heap) : outcome A :=
  match o with
  | Ok a _ => Ok a h
  | Raise e => Raise e
  | Undef => Undef
  end.

(** ** The plugin type enumeration *)

(** [PluginType] is declared in [meltano.core.plugin], outside this module.
    It is taken as a parameter: a type of members with decidable equality,
    and the lookup of a member by its value, [PluginType(raw)], which raises
    [ValueError] when no member has that value. *)
Class PluginTypeEnum (PluginType : Type) := {
  PluginType_eq_dec :: EqDecision PluginType;
  PluginType_of_value : string -> option PluginType
}.

Section Classes.
Context {PluginType : Type} `{PluginTypeEnum PluginType}.

(** *** [EnvironmentPluginConfig] *)

(** Modelled from the spec: [PluginRef.__init__] and the attribute storage
    of [Canonical] are outside this module; an instance holds the plugin
    type and the plugin name it was built with, next to the two attributes
    that [EnvironmentPluginConfig.__init__] assigns. *)
Record EnvironmentPluginConfig := {
  plugin_type : PluginType;
  name : string;
  config : val;
  extras : val
}.

(** [EnvironmentPluginConfig.__init__], with [extras] the dict that the
    call built from the remaining keyword arguments. *)
Definition EnvironmentPluginConfig_init
    (plugin_type : PluginType) (name : val) (config : val) (extras : val)
  : M EnvironmentPluginConfig :=
  match name with
  | VStr name =>
      c <- or_empty_dict config ;;
      c' <- deepcopy c ;;
      ret {| plugin_type := plugin_type; name := name;
             config := c'; extras := extras |}
  | _ => undef
  end.

(** The call [EnvironmentPluginConfig(plugin_type=plugin_type, **raw_plugin)]:
    the keyword arguments are bound to the signature
    [(self, plugin_type, name, config=None, **extras)]. *)
Definition EnvironmentPluginConfig_call
    (plugin_type : PluginType) (kwargs : list (string * val))
  : M EnvironmentPluginConfig :=
  if bool_decide ("plugin_type" ∈ dict_keys kwargs) then
    raise (TypeError "got multiple values for keyword argument 'plugin_type'")
  else if bool_decide ("self" ∈ dict_keys kwargs) then
    raise (TypeError "got multiple values for argument 'self'")
  else
    match dict_get "name" kwargs with
    | None => raise (TypeError "missing 1 required positional argument: 'name'")
    | Some name =>
        ex <- alloc (ODict (extras_arg kwargs)) ;;
        EnvironmentPluginConfig_init plugin_type name (config_arg kwargs) (VRef ex)
    end.

(** The items of the dict behind an attribute ([.items()]). *)
Definition items_of (v : val) : M (list (string * val)) :=
  match v with
  | VRef l =>
      o <- deref l ;;
      match o with
      | ODict items => ret items
      | OList _ => raise (AttributeError "items")
      end
  | _ => raise (AttributeError "items")
  end.

(** Property [extra_config]: the dict comprehension
    [{f"_{key}": value for key, value in self.extras.items()}]. *)
Definition extra_config (p : EnvironmentPluginConfig) : M val :=
  items <- items_of (extras p) ;;
  l <- alloc (ODict (dict_update [] (underscore <$> items))) ;;
  ret (VRef l).

(** Property [config_with_extras]: the dict display
    [{**self.config, **self.extra_config}], a new dict updated with each
    operand in turn. *)
Definition config_with_extras (p : EnvironmentPluginConfig) : M val :=
  r <- alloc (ODict []) ;;
  c <- kwargs_of (config p) ;;
  _ <- update_at r c ;;
  e <- extra_config p ;;
  e' <- kwargs_of e ;;
  _ <- update_at r e' ;;
  ret (VRef r).

(** *** [EnvironmentConfig] *)

Abbreviation plugin_index :=
  (list ((PluginType * string) * EnvironmentPluginConfig)).

Record EnvironmentConfig := { plugins : plugin_index }.

(** The inner loop of [load_plugins], over the raw specs of one type. *)
Fixpoint load_raw_plugins (plugin_type : PluginType) (raw_plugins : list val)
    (plugin_mapping : plugin_index) : M plugin_index :=
  match raw_plugins with
  | [] => ret plugin_mapping
  | raw_plugin :: rest =>
      kwargs <- kwargs_of raw_plugin ;;
      plugin <- EnvironmentPluginConfig_call plugin_type kwargs ;;
      load_raw_plugins plugin_type rest
        (dict_set (plugin_type, name plugin) plugin plugin_mapping)
  end.

(** The outer loop of [load_plugins], over [plugins.items()]. *)
Fixpoint load_plugin_types (items : list (string * val))
    (plugin_mapping : plugin_index) : M plugin_index :=
  match items with
  | [] => ret plugin_mapping
  | (raw_plugin_type, raw_plugins) :: rest =>
      match PluginType_of_value raw_plugin_type with
      | None => raise (ValueError raw_plugin_type)
      | Some plugin_type =>
          specs <- iter_values raw_plugins ;;
          plugin_mapping' <- load_raw_plugins plugin_type specs plugin_mapping ;;
          load_plugin_types rest plugin_mapping'
      end
  end.

Definition load_plugins (plugins : val) : M plugin_index :=
  items <- items_of plugins ;;
  load_plugin_types items [].

(** [EnvironmentConfig.__init__] *)
Definition EnvironmentConfig_init (plugins : val) : M EnvironmentConfig :=
  p <- or_empty_dict plugins ;;
  plugin_mapping <- load_plugins p ;;
  ret {| plugins := plugin_mapping |}.

(** The call [EnvironmentConfig( **kwargs)], bound to the signature
    [(self, plugins=None)]. *)
Definition EnvironmentConfig_call (kwargs : list (string * val))
  : M EnvironmentConfig :=
  match filter (fun k => k ≠ "plugins") (dict_keys kwargs) with
  | [] => EnvironmentConfig_init (default VNone (dict_get "plugins" kwargs))
  | k :: _ =>
      raise (TypeError (if decide (k = "self")
                        then "got multiple values for argument 'self'"
                        else "got an unexpected keyword argument"))
  end.

(** *** [Environment] *)

Record Environment := {
  env_name : string;
  env_config : EnvironmentConfig
}.

(** [Environment.__init__] *)
Definition Environment_init (name : string) (config : val) : M Environment :=
  c <- or_empty_dict config ;;
  kwargs <- kwargs_of c ;;
  cfg <- EnvironmentConfig_call kwargs ;;
  ret {| env_name := name; env_config := cfg |}.

(** [Environment.get_plugin_config] *)
Definition get_plugin_config (self : Environment)
    (plugin_type : PluginType) (name : string)
  : M (option EnvironmentPluginConfig) :=
  ret (dict_get (plugin_type, name) (plugins (env_config self))).

(** *** Reading a raw plugins mapping *)

(** The raw specs of a raw plugins mapping, in the order in which
    [load_plugins] meets them, each with the type key it is listed under. *)
Definition raw_specs (h : heap) (items : list (string * val))
  : list (string * val) :=
  items ≫= (fun kv => match iter_values kv.2 h with
                      | Ok specs _ => pair kv.1 <$> specs
                      | _ => []
                      end).

(** The name under which the constructor files a spec, when the call
    binds. *)
Definition spec_name (kwargs : list (string * val)) : option string :=
  if bool_decide ("plugin_type" ∈ dict_keys kwargs) then None
  else if bool_decide ("self" ∈ dict_keys kwargs) then None
  else match dict_get "name" kwargs with
       | Some (VStr n) => Some n
       | _ => None
       end.

Definition spec_kwargs (h : heap) (raw : val) : option (list (string * val)) :=
  match kwargs_of raw h with
  | Ok kwargs _ => Some kwargs
  | _ => None
  end.

(** The (plugin type, name) pair that a raw spec resolves to. *)
Definition spec_key (h : heap) (s : string * val) : option (PluginType * string) :=
  match PluginType_of_value s.1, spec_kwargs h s.2 with
  | Some t, Some kwargs => pair t <$> spec_name kwargs
  | _, _ => None
  end.

(** The item that [load_plugins] writes for a plugin. *)
Definition entry (p : EnvironmentPluginConfig)
  : (PluginType * string) * EnvironmentPluginConfig :=
  ((plugin_type p, name p), p).

(** In the store [h'], [p] is the override that the raw spec [s] of the
    store [h] describes: its type and name are those the spec resolves to,
    its [extras] are the remaining items of the spec, and its [config] reads
    as [config or {}] does for the spec's [config], whatever that value is:
    as the value itself when it is true for Python, as an empty dict when it
    is false or absent. *)
Definition built_from (h h' : heap) (s : string * val)
    (p : EnvironmentPluginConfig) : Prop :=
  exists kwargs,
    spec_kwargs h s.2 = Some kwargs ∧
    spec_key h s = Some (plugin_type p, name p) ∧
    (exists a, extras p = VRef a ∧ h' !! a = Some (ODict (extras_arg kwargs))) ∧
    (forall b, truthy (config_arg kwargs) h = Ok b h ->
               forall d, view d h' (config p) =
                         if b then view d h (config_arg kwargs)
                         else view d [ODict []] (VRef 0)).

(** A raw plugins mapping that [load_plugins] accepts: every type key
    resolves, every value can be iterated, and every raw spec binds. *)
Definition loadable (h : heap) (items : list (string * val)) : Prop :=
  Forall (fun kv => is_Some (PluginType_of_value kv.1) ∧
                    exists specs, iter_values kv.2 h = Ok specs h) items ∧
  Forall (fun s => is_Some (spec_key h s)) (raw_specs h items).

(** Every key of the index is the (type, name) pair of its value, and no
    key is repeated. *)
Definition index_ok (m : plugin_index) : Prop :=
  NoDup (dict_keys m) ∧ forall k p, (k, p) ∈ m -> k = (plugin_type p, name p).
End Classes.

Arguments EnvironmentPluginConfig PluginType : clear implicits.
Arguments EnvironmentConfig PluginType : clear implicits.
Arguments Environment PluginType : clear implicits.

(** Modelled from the spec: the members of [PluginType] that the
    specification names, with their serialized values. *)
Inductive KnownPluginType := EXTRACTOR | LOADER.

#[global] Instance KnownPluginType_eq_dec : EqDecision KnownPluginType.
Proof. solve_decision. Defined.

#[global] Instance KnownPluginType_enum : PluginTypeEnum KnownPluginType := {
  PluginType_of_value raw :=
    if String.eqb raw "extractors" then Some EXTRACTOR
    else if String.eqb raw "loaders" then Some LOADER
    else None
}.

(** ** The copies of [copy.deepcopy] *)

(** The image of a value under a [memo]: references are redirected to the
    recorded copies. *)
Definition rename_val (memo : gmap loc loc) (v : val) : option val :=
  match v with
  | VRef l => VRef <$> memo !! l
  | _ => Some v
  end.

(** [o'] is [o] with every component redirected through [memo]. *)
Definition renamed (memo : gmap loc loc) (o o' : obj) : Prop :=
  match o, o' with
  | ODict items, ODict items' =>
      Forall2 (fun kv kv' => kv.1 = kv'.1 ∧ rename_val memo kv.2 = Some kv'.2)
        items items'
  | OList elems, OList elems' =>
      Forall2 (fun v v' => rename_val memo v = Some v') elems elems'
  | _, _ => False
  end.

(** The invariant of a [deepcopy] call that started on the store [h0]: the
    objects of [h0] are untouched, [memo] sends objects of [h0] to objects
    allocated since, and every object allocated since is such a copy. *)
Definition copy_inv (h0 : heap) (st : copy_state) : Prop :=
  h0 `prefix_of` st.1 ∧
  (forall l y, st.2 !! l = Some y -> l < length h0 ∧ length h0 <= y < length st.1) ∧
  (forall a, length h0 <= a < length st.1 -> exists l, st.2 !! l = Some a).

(** The object at [y] is the finished copy of the object of [h0] at [l]. *)
Definition copied (h0 : heap) (st : copy_state) (l y : loc) : Prop :=
  exists o o', h0 !! l = Some o ∧ st.1 !! y = Some o' ∧ renamed st.2 o o'.

(** What a copier achieves on the values of [h0], when [bound] exceeds the
    number of objects of [h0] not yet in [memo]. *)
Definition copier_ok (h0 : heap)
    (copy : val -> copy_state -> option (val * copy_state)) (bound : nat) : Prop :=
  forall x st,
    copy_inv h0 st -> val_ok (length h0) x -> length h0 < bound + size st.2 ->
    exists r st',
      copy x st = Some (r, st') ∧
      copy_inv h0 st' ∧
      st.1 `prefix_of` st'.1 ∧
      st.2 ⊆ st'.2 ∧
      rename_val st'.2 x = Some r ∧
      (forall l y, st'.2 !! l = Some y -> st.2 !! l = None ->
                   length st.1 <= y ∧ copied h0 st' l y).

(** The example of the specification,
    [{"plugins": {"extractors": [{"name": "tap-csv", "config": {"a": 1}}]}}],
    laid out in a store; the outer dict is at address 4. *)
Definition example_store : heap :=
  [ ODict [("a", VInt 1)];
    ODict [("name", VStr "tap-csv"); ("config", VRef 0)];
    OList [VRef 1];
    ODict [("extractors", VRef 2)];
    ODict [("plugins", VRef 3)] ].

(** [{"extractors": [{"name": "tap-csv"},
                     {"name": "tap-csv", "config": {"path": "/data"}}],
      "bogus": []}], at address 5: two raw specs with the same type and name,
    and a type key that is no plugin type. *)
Definition duplicate_store : heap :=
  [ ODict [("name", VStr "tap-csv")];
    ODict [("name", VStr "tap-csv"); ("config", VRef 2)];
    ODict [("path", VStr "/data")];
    OList [VRef 0; VRef 1];
    OList [];
    ODict [("extractors", VRef 3); ("bogus", VRef 4)];
    ODict [("extractors", VRef 3)] ].

(** [{"extractors": [{}], "bogus": []}], at address 3: a raw spec without a
    name, listed before a type key that is no plugin type. *)
Definition nameless_store : heap :=
  [ ODict [];
    OList [VRef 0];
    OList [];
    ODict [("extractors", VRef 1); ("bogus", VRef 2)] ].

(** An override with [config = {"a": 1, "_select": 0}] at address 0 and
    [extras = {"select": ["*.csv"], "schema": "public"}] at address 1. *)
Definition override_store : heap :=
  [ ODict [("a", VInt 1); ("_select", VInt 0)];
    ODict [("select", VRef 2); ("schema", VStr "public")];
    OList [VStr "*.csv"] ].

Definition override_example : EnvironmentPluginConfig KnownPluginType :=
  {| plugin_type := EXTRACTOR; name := "tap-csv";
     config := VRef 0; extras := VRef 1 |}.

(** [{"plugins": {"extractors": [{"name": "tap-csv",
      "config": {"path": "/data", "opts": ["a"]}, "select": ["*.csv"]}]}}],
    at address 6; the raw spec is at address 3 and its [config] at 0. *)
Definition spec_store : heap :=
  [ ODict [("path", VStr "/data"); ("opts", VRef 1)];
    OList [VStr "a"];
    OList [VStr "*.csv"];
    ODict [("name", VStr "tap-csv"); ("config", VRef 0); ("select", VRef 2)];
    OList [VRef 3];
    ODict [("extractors", VRef 4)];
    ODict [("plugins", VRef 5)] ].

Definition spec_kwargs_example : list (string * val) :=
  [("name", VStr "tap-csv"); ("config", VRef 0); ("select", VRef 2)].




(** [{"extractors": [{"name": "tap-csv"}, {"name": "tap-gitlab"}],
      "loaders": [{"name": "target-csv"}]}], at address 5: three raw specs
    that resolve to three pairs. *)
Definition three_specs_store : heap :=
  [ ODict [("name", VStr "tap-csv")];
    ODict [("name", VStr "tap-gitlab")];
    ODict [("name", VStr "target-csv")];
    OList [VRef 0; VRef 1];
    OList [VRef 2];
    ODict [("extractors", VRef 3); ("loaders", VRef 4)] ].

(** [{"extractors": [{"name": "a", "config": [1]},
                     {"name": "a", "config": [2]}]}], at address 5: two raw
    specs with one pair, whose [config] values are lists. *)
Definition list_config_store : heap :=
  [ OList [VInt 1];
    OList [VInt 2];
    ODict [("name", VStr "a"); ("config", VRef 0)];
    ODict [("name", VStr "a"); ("config", VRef 1)];
    OList [VRef 2; VRef 3];
    ODict [("extractors", VRef 4)] ].

(** A store with the list [[1]] alone. *)
Definition list_store : heap := [ OList [VInt 1] ].

(** * Properties *)

(** ** Dictionaries *)

Section PyDictFacts.
Context {K V : Type} `{EqDecision K}.
Implicit Types (d e : list (K * V)) (k : K) (v : V).

Lemma dict_get_set_eq k v d : dict_get k (dict_set k v d) = Some v.
Proof.
  induction d as [|[k' v'] d IH]; simpl.
  - by rewrite decide_True.
  - destruct (decide (k = k')) as [->|Hne]; simpl.
    + by rewrite decide_True.
    + by rewrite decide_False.
Qed.

Lemma dict_get_set_ne k k' v d :
  k ≠ k' -> dict_get k' (dict_set k v d) = dict_get k' d.
Proof.
  intros Hne. induction d as [|[k0 v0] d IH]; simpl.
  - rewrite decide_False; [done | congruence].
  - destruct (decide (k = k0)) as [->|Hne0]; simpl.
    + rewrite !decide_False; [done | congruence ..].
    + by rewrite IH.
Qed.

Lemma dict_get_None k d : dict_get k d = None <-> k ∉ dict_keys d.
Proof.
  unfold dict_keys. induction d as [|[k' v'] d IH]; simpl.
  - split; [intros _; apply not_elem_of_nil | done].
  - rewrite not_elem_of_cons. destruct (decide (k = k')); [|tauto].
    split; [done | tauto].
Qed.

Lemma dict_get_Some_elem k v d : dict_get k d = Some v -> (k, v) ∈ d.
Proof.
  induction d as [|[k' v'] d IH]; simpl; [done |].
  destruct (decide (k = k')) as [->|].
  - intros [= ->]. apply list_elem_of_here.
  - intros Hd. apply list_elem_of_further; auto.
Qed.

Lemma dict_get_elem k v d :
  NoDup (dict_keys d) -> (k, v) ∈ d -> dict_get k d = Some v.
Proof.
  unfold dict_keys. induction d as [|[k' v'] d IH]; simpl.
  - intros _ Hin. by apply elem_of_nil in Hin.
  - rewrite NoDup_cons. intros [Hk' Hnd] Hin.
    apply elem_of_cons in Hin as [[= -> ->]|Hin].
    + by rewrite decide_True.
    + rewrite decide_False; [auto |].
      intros ->. apply Hk'. apply list_elem_of_fmap. by exists (k', v).
Qed.

Lemma dict_set_fresh k v d : k ∉ dict_keys d -> dict_set k v d = d ++ [(k, v)].
Proof.
  unfold dict_keys. induction d as [|[k' v'] d IH]; simpl; [done |].
  rewrite not_elem_of_cons. intros [Hne Hk].
  rewrite decide_False by done. by rewrite IH.
Qed.

Lemma dict_set_present k v d :
  k ∈ dict_keys d -> dict_keys (dict_set k v d) = dict_keys d.
Proof.
  unfold dict_keys. induction d as [|[k' v'] d IH]; simpl.
  - intros Hin. by apply elem_of_nil in Hin.
  - intros Hin. destruct (decide (k = k')) as [->|Hne]; simpl; [done |].
    apply elem_of_cons in Hin as [?|Hin]; [done |]. f_equal. by apply IH.
Qed.

Lemma dict_keys_set k v d :
  dict_keys (dict_set k v d) =
  if decide (k ∈ dict_keys d) then dict_keys d else dict_keys d ++ [k].
Proof.
  destruct (decide (k ∈ dict_keys d)) as [Hin|Hnin].
  - by apply dict_set_present.
  - rewrite dict_set_fresh by done. unfold dict_keys. by rewrite fmap_app.
Qed.

Lemma dict_set_NoDup k v d :
  NoDup (dict_keys d) -> NoDup (dict_keys (dict_set k v d)).
Proof.
  intros Hnd. rewrite dict_keys_set. case_decide; [done |].
  apply NoDup_app. split_and!; [done | | apply NoDup_singleton].
  intros x Hx Hx'. apply list_elem_of_singleton in Hx' as ->. done.
Qed.

Lemma dict_set_length k v d :
  length (dict_set k v d) =
  if decide (k ∈ dict_keys d) then length d else S (length d).
Proof.
  case_decide as Hk.
  - pose proof (dict_set_present k v d Hk) as Hkeys.
    apply (f_equal length) in Hkeys. unfold dict_keys in Hkeys.
    by rewrite 2!length_fmap in Hkeys.
  - rewrite dict_set_fresh by done. rewrite length_app. simpl. lia.
Qed.

Lemma dict_update_cons d k v e :
  dict_update d ((k, v) :: e) = dict_update (dict_set k v d) e.
Proof. reflexivity. Qed.

Lemma dict_keys_cons k v d : dict_keys ((k, v) :: d) = k :: dict_keys d.
Proof. reflexivity. Qed.

Lemma dict_update_app d e :
  NoDup (dict_keys d ++ dict_keys e) -> dict_update d e = d ++ e.
Proof.
  unfold dict_update. revert d.
  induction e as [|[k v] e IH]; intros d Hnd; simpl.
  - by rewrite app_nil_r.
  - assert (k ∉ dict_keys d) as Hk.
    { apply NoDup_app in Hnd as (_ & Hdis & _). intros Hin.
      apply (Hdis k Hin). unfold dict_keys. simpl. apply list_elem_of_here. }
    rewrite dict_set_fresh by done. rewrite IH.
    + by rewrite <- app_assoc.
    + unfold dict_keys in *. rewrite fmap_app. simpl in *.
      rewrite <- app_assoc. done.
Qed.

Lemma dict_update_nil e : NoDup (dict_keys e) -> dict_update [] e = e.
Proof. intros Hnd. by rewrite dict_update_app. Qed.

Lemma dict_update_NoDup d e :
  NoDup (dict_keys d) -> NoDup (dict_keys (dict_update d e)).
Proof.
  revert d. induction e as [|[k v] e IH]; intros d Hnd; [done |].
  rewrite dict_update_cons. apply IH. by apply dict_set_NoDup.
Qed.

(** [{**d, **e}[k]]: the value of [e] when [e] has the key, else that
    of [d]. *)
Lemma dict_get_update k d e :
  NoDup (dict_keys e) ->
  dict_get k (dict_update d e) =
  match dict_get k e with
  | Some v => Some v
  | None => dict_get k d
  end.
Proof.
  revert d. induction e as [|[k' v'] e IH]; intros d Hnd; [done |].
  rewrite dict_keys_cons in Hnd. apply NoDup_cons in Hnd as [Hk' Hnd].
  rewrite dict_update_cons, IH by done. simpl.
  destruct (decide (k = k')) as [->|Hne].
  - apply dict_get_None in Hk'. rewrite Hk'. apply dict_get_set_eq.
  - destruct (dict_get k e); [done |]. by apply dict_get_set_ne.
Qed.

Lemma dict_keys_update d e k :
  k ∈ dict_keys (dict_update d e) <-> k ∈ dict_keys d ∨ k ∈ dict_keys e.
Proof.
  revert d. induction e as [|[k' v'] e IH]; intros d.
  - unfold dict_keys at 3. simpl. rewrite elem_of_nil. tauto.
  - rewrite dict_update_cons, IH, dict_keys_set, dict_keys_cons.
    rewrite elem_of_cons. case_decide as Hk'.
    + split; [tauto |]. intros [?|[->|?]]; auto.
    + rewrite elem_of_app, list_elem_of_singleton. tauto.
Qed.

Lemma dict_update_split d e1 e2 :
  dict_update d (e1 ++ e2) = dict_update (dict_update d e1) e2.
Proof. unfold dict_update. by rewrite fold_left_app. Qed.

Lemma dict_set_elem k v d (x : K * V) : x ∈ dict_set k v d -> x = (k, v) ∨ x ∈ d.
Proof.
  induction d as [|[k' v'] d IH]; simpl.
  - intros Hx. apply list_elem_of_singleton in Hx. by left.
  - destruct (decide (k = k')) as [->|Hne].
    + intros [->|Hx]%elem_of_cons; [by left | right; by apply list_elem_of_further].
    + intros [->|Hx]%elem_of_cons; [right; apply list_elem_of_here |].
      destruct (IH Hx) as [->|Hin]; [by left | right; by apply list_elem_of_further].
Qed.

Lemma dict_update_elem d e (x : K * V) : x ∈ dict_update d e -> x ∈ d ∨ x ∈ e.
Proof.
  revert d. induction e as [|[k v] e IH]; intros d; [by left |].
  rewrite dict_update_cons. intros Hx. destruct (IH _ Hx) as [Hin|Hin].
  - apply dict_set_elem in Hin as [->|Hin]; [right; apply list_elem_of_here | by left].
  - right. by apply list_elem_of_further.
Qed.

Lemma dict_get_update_other k d e :
  k ∉ dict_keys e -> dict_get k (dict_update d e) = dict_get k d.
Proof.
  revert d. induction e as [|[k' v'] e IH]; intros d Hk; [done |].
  rewrite dict_keys_cons in Hk. apply not_elem_of_cons in Hk as [Hne Hk].
  rewrite dict_update_cons, IH by done. by apply dict_get_set_ne.
Qed.

(** Last write wins: the value of a key is the one written last. *)
Lemma dict_update_last k v d pre post :
  k ∉ dict_keys post ->
  dict_get k (dict_update d (pre ++ (k, v) :: post)) = Some v.
Proof.
  intros Hk. rewrite dict_update_split, dict_update_cons.
  rewrite dict_get_update_other by done. apply dict_get_set_eq.
Qed.
End PyDictFacts.

(** ** The store *)

Lemma lookup_alloc (h : heap) (o : obj) : (h ++ [o]) !! length h = Some o.
Proof. by apply list_lookup_middle. Qed.

Lemma lookup_alloc_old (h : heap) (o : obj) (l : loc) :
  l < length h -> (h ++ [o]) !! l = h !! l.
Proof. intros Hl. by apply lookup_app_l. Qed.

Lemma lookup_is_lt (h : heap) (l : loc) (o : obj) : h !! l = Some o -> l < length h.
Proof. apply lookup_lt_Some. Qed.

(** ** Runs *)

Lemma bind_ok {A B} (m : M A) (k : A -> M B) (h h' : heap) (a : A) :
  m h = Ok a h' -> bind m k h = k a h'.
Proof. unfold bind. by intros ->. Qed.

Lemma bind_raise {A B} (m : M A) (k : A -> M B) (h : heap) (e : exn) :
  m h = Raise e -> bind m k h = Raise e.
Proof. unfold bind. by intros ->. Qed.

Lemma bind_ok_inv {A B} (m : M A) (k : A -> M B) (h h2 : heap) (b : B) :
  bind m k h = Ok b h2 -> exists a h1, m h = Ok a h1 ∧ k a h1 = Ok b h2.
Proof. unfold bind. destruct (m h) as [a h1| |]; [eauto | done | done]. Qed.

Lemma bind_assoc {A B C} (m : M A) (f : A -> M B) (g : B -> M C) (h : heap) :
  bind (bind m f) g h = bind m (fun a => bind (f a) g) h.
Proof. unfold bind. by destruct (m h). Qed.

Lemma bind_ext {A B} (m : M A) (f g : A -> M B) (h : heap) :
  (forall a h', f a h' = g a h') -> bind m f h = bind m g h.
Proof. intros Hfg. unfold bind. by destruct (m h). Qed.

Lemma deref_ok (h : heap) (l : loc) (o : obj) : h !! l = Some o -> deref l h = Ok o h.
Proof. unfold deref. by intros ->. Qed.

Lemma kwargs_of_dict (h : heap) (l : loc) (items : list (string * val)) :
  h !! l = Some (ODict items) -> kwargs_of (VRef l) h = Ok items h.
Proof. intros Hl. unfold kwargs_of. by rewrite (bind_ok _ _ _ _ _ (deref_ok _ _ _ Hl)). Qed.

Lemma items_of_dict (h : heap) (l : loc) (items : list (string * val)) :
  h !! l = Some (ODict items) -> items_of (VRef l) h = Ok items h.
Proof. intros Hl. unfold items_of. by rewrite (bind_ok _ _ _ _ _ (deref_ok _ _ _ Hl)). Qed.

Lemma or_empty_dict_None (h : heap) :
  or_empty_dict VNone h = Ok (VRef (length h)) (h ++ [ODict []]).
Proof. reflexivity. Qed.

Lemma truthy_dict (h : heap) (l : loc) (items : list (string * val)) :
  h !! l = Some (ODict items) ->
  truthy (VRef l) h = Ok (negb (bool_decide (items = []))) h.
Proof. intros Hl. unfold truthy. by rewrite (bind_ok _ _ _ _ _ (deref_ok _ _ _ Hl)). Qed.

Lemma or_empty_dict_empty (h : heap) (l : loc) :
  h !! l = Some (ODict []) ->
  or_empty_dict (VRef l) h = Ok (VRef (length h)) (h ++ [ODict []]).
Proof.
  intros Hl. unfold or_empty_dict.
  by rewrite (bind_ok _ _ _ _ _ (truthy_dict _ _ _ Hl)).
Qed.

Lemma or_empty_dict_nonempty (h : heap) (l : loc) (items : list (string * val)) :
  h !! l = Some (ODict items) -> items ≠ [] ->
  or_empty_dict (VRef l) h = Ok (VRef l) h.
Proof.
  intros Hl Hne. unfold or_empty_dict.
  rewrite (bind_ok _ _ _ _ _ (truthy_dict _ _ _ Hl)).
  by rewrite bool_decide_false.
Qed.

(** ** Stores that grow *)

Lemma val_ok_mono (n n' : nat) (v : val) : n <= n' -> val_ok n v -> val_ok n' v.
Proof. destruct v; simpl; [done .. | lia]. Qed.

Lemma store_wf_lookup (h : heap) (l : loc) (o : obj) :
  store_wf h -> h !! l = Some o ->
  obj_wf o ∧ Forall (val_ok (length h)) (obj_vals o).
Proof. intros Hwf Hl. by apply (proj1 (Forall_lookup _ _) Hwf l o). Qed.

Lemma store_wf_alloc (h : heap) (o : obj) :
  store_wf h -> obj_wf o -> Forall (val_ok (length h)) (obj_vals o) ->
  store_wf (h ++ [o]).
Proof.
  intros Hwf Ho Hvals. unfold store_wf. rewrite length_app. simpl.
  apply Forall_app. split.
  - eapply Forall_impl; [exact Hwf |]. intros o' [? Hv]. split; [done |].
    eapply Forall_impl; [exact Hv |]. intros v. apply val_ok_mono. lia.
  - apply Forall_singleton. split; [done |].
    eapply Forall_impl; [exact Hvals |]. intros v. apply val_ok_mono. lia.
Qed.

(** Reads through references see the same value in every store that agrees
    with [h] on the objects of [h]. *)
Lemma view_old (h h' : heap) :
  store_wf h ->
  (forall a, a < length h -> h' !! a = h !! a) ->
  forall d v, val_ok (length h) v -> view d h' v = view d h v.
Proof.
  intros Hwf Hag. induction d as [|d IH]; intros [| | | |l] Hv; simpl; try done.
  simpl in Hv. rewrite Hag by done.
  destruct (h !! l) as [[items|elems]|] eqn:Hl; [| |done].
  - destruct (store_wf_lookup _ _ _ Hwf Hl) as [_ Hvals]. simpl in Hvals.
    f_equal. apply list_fmap_ext. intros i [k v] Hi. simpl. f_equal.
    apply IH. apply (proj1 (Forall_lookup _ _) Hvals i v).
    by rewrite list_lookup_fmap, Hi.
  - destruct (store_wf_lookup _ _ _ Hwf Hl) as [_ Hvals]. simpl in Hvals.
    f_equal. apply list_fmap_ext. intros i v Hi.
    apply IH. by apply (proj1 (Forall_lookup _ _) Hvals i v).
Qed.

Lemma view_prefix (h h' : heap) (d : nat) (v : val) :
  store_wf h -> h `prefix_of` h' -> val_ok (length h) v ->
  view d h' v = view d h v.
Proof.
  intros Hwf Hpre Hv. apply view_old; [done | | done].
  intros a Ha. symmetry. by apply prefix_lookup_lt.
Qed.

(** ** [copy.deepcopy] copies *)

Lemma prefix_intro (h h' : heap) :
  length h <= length h' -> (forall a, a < length h -> h' !! a = h !! a) ->
  h `prefix_of` h'.
Proof.
  intros Hlen Hag. replace h with (take (length h) h'); [apply prefix_take |].
  apply list_eq. intros i. destruct (decide (i < length h)) as [Hi|Hi].
  - rewrite lookup_take_lt by done. auto.
  - rewrite (proj2 (lookup_ge_None h i)) by lia.
    apply lookup_ge_None. rewrite length_take. lia.
Qed.

Lemma rename_val_mono (memo memo' : gmap loc loc) (v v' : val) :
  memo ⊆ memo' -> rename_val memo v = Some v' -> rename_val memo' v = Some v'.
Proof.
  intros Hsub. destruct v as [| | | |l]; simpl; try done.
  destruct (memo !! l) as [y|] eqn:Hl; simpl; [|done].
  intros [= <-]. by rewrite (lookup_weaken _ _ _ _ Hl Hsub).
Qed.

Lemma renamed_mono (memo memo' : gmap loc loc) (o o' : obj) :
  memo ⊆ memo' -> renamed memo o o' -> renamed memo' o o'.
Proof.
  intros Hsub. destruct o, o'; simpl; try done; intros Hren;
    eapply Forall2_impl; try exact Hren; simpl.
  - intros kv kv' [? ?]. eauto using rename_val_mono.
  - intros v v'. eauto using rename_val_mono.
Qed.

Lemma memo_size_le (h0 : heap) (st : copy_state) :
  copy_inv h0 st -> size st.2 <= length h0.
Proof.
  intros (_ & Hrange & _).
  rewrite <- (size_dom (D := gset loc)).
  rewrite <- (size_set_seq (C := gset loc) 0 (length h0)).
  apply subseteq_size. intros l Hl. apply elem_of_dom in Hl as [y Hy].
  apply elem_of_set_seq. apply Hrange in Hy. lia.
Qed.

Lemma copy_inv_insert (h0 : heap) (st : copy_state) (y : loc) (o : obj) :
  length h0 <= y -> copy_inv h0 st -> copy_inv h0 (<[y := o]> st.1, st.2).
Proof.
  intros Hy (Hpre & Hrange & Hnew). split_and!; simpl.
  - apply prefix_intro.
    + rewrite length_insert. by apply prefix_length.
    + intros a Ha. rewrite list_lookup_insert_ne by lia.
      symmetry. by apply prefix_lookup_lt.
  - intros l y' Hl. rewrite length_insert. eauto.
  - intros a. rewrite length_insert. eauto.
Qed.

Lemma copy_inv_alloc (h0 : heap) (st : copy_state) (l : loc) (o : obj) :
  l < length h0 -> st.2 !! l = None -> copy_inv h0 st ->
  copy_inv h0 (st.1 ++ [o], <[l := length st.1]> st.2).
Proof.
  intros Hl Hnone (Hpre & Hrange & Hnew). split_and!; simpl.
  - by apply prefix_app_r.
  - intros l' y. rewrite length_app. simpl.
    intros [[<- <-]|[_ Hl']]%lookup_insert_Some.
    + apply prefix_length in Hpre. lia.
    + apply Hrange in Hl'. lia.
  - intros a. rewrite length_app. simpl. intros Ha.
    destruct (decide (a = length st.1)) as [->|Hne].
    + exists l. apply lookup_insert_eq.
    + destruct (Hnew a) as [l' Hl']; [lia |]. exists l'.
      rewrite lookup_insert_ne; [done |]. intros <-. congruence.
Qed.

Section Deepcopy.
Variable h0 : heap.
Hypothesis Hwf : store_wf h0.

(** A finished copy stays finished while the store only grows, or changes
    at another address, and [memo] only grows. *)
Lemma copied_mono (st st' : copy_state) (l y : loc) :
  copied h0 st l y -> st.2 ⊆ st'.2 -> st'.1 !! y = st.1 !! y -> copied h0 st' l y.
Proof.
  intros (o & o' & Ho & Ho' & Hren) Hsub Hy. exists o, o'.
  split_and!; [done | by rewrite Hy | by eapply renamed_mono].
Qed.

Section FillLoops.
Variable copy : val -> copy_state -> option (val * copy_state).
Variable f : nat.
Hypothesis Hcopy : copier_ok h0 copy f.
Variable y : loc.
Hypothesis Hy : length h0 <= y.

Lemma fill_dict_ok (rest done' : list (string * val)) (st : copy_state) :
  copy_inv h0 st ->
  Forall (val_ok (length h0)) rest.*2 ->
  length h0 < f + size st.2 ->
  st.1 !! y = Some (ODict done') ->
  NoDup (dict_keys done' ++ dict_keys rest) ->
  exists st',
    fill_dict copy y rest st = Some st' ∧
    copy_inv h0 st' ∧
    length st.1 <= length st'.1 ∧
    (forall a, a < length st.1 -> a ≠ y -> st'.1 !! a = st.1 !! a) ∧
    st.2 ⊆ st'.2 ∧
    (exists rest',
        Forall2 (fun kv kv' => kv.1 = kv'.1 ∧ rename_val st'.2 kv.2 = Some kv'.2)
          rest rest' ∧
        st'.1 !! y = Some (ODict (done' ++ rest'))) ∧
    (forall l y', st'.2 !! l = Some y' -> st.2 !! l = None ->
                  length st.1 <= y' ∧ copied h0 st' l y').
Proof.
  revert done' st.
  induction rest as [|[key value] rest IH]; intros done' st Hinv Hok Hfuel Hyo Hnd.
  - exists st. simpl. split_and!; try done.
    + exists []. split; [constructor | by rewrite app_nil_r].
    + intros l y' Hl Hl'. congruence.
  - rewrite fmap_cons, Forall_cons in Hok. destruct Hok as [Hval Hok].
    destruct (Hcopy value st Hinv Hval Hfuel)
      as (v' & st1 & Hc & Hinv1 & Hpre1 & Hsub1 & Hren1 & Hnew1).
    assert (y < length st.1) as Hylt by (by eapply lookup_lt_Some).
    pose proof (prefix_length _ _ Hpre1) as Hlen1.
    assert (st1.1 !! y = Some (ODict done')) as Hyo1
      by (by eapply prefix_lookup_Some).
    assert (key ∉ dict_keys done') as Hkey.
    { apply NoDup_app in Hnd as (_ & Hdis & _). intros Hin.
      apply (Hdis key Hin). rewrite dict_keys_cons. apply list_elem_of_here. }
    simpl. rewrite Hc. unfold store_setitem. rewrite Hyo1.
    rewrite dict_set_fresh by done.
    set (h2 := <[y := ODict (done' ++ [(key, v')])]> st1.1).
    destruct (IH (done' ++ [(key, v')]) (h2, st1.2))
      as (st' & Hfill & Hinv' & Hlen' & Hframe' & Hsub' & (rest' & Hrest' & Hyo') & Hnew').
    + by apply copy_inv_insert.
    + done.
    + simpl. pose proof (map_subseteq_size _ _ Hsub1). lia.
    + simpl. unfold h2. apply list_lookup_insert_eq. lia.
    + unfold dict_keys in *. rewrite fmap_app, <- app_assoc. done.
    + simpl in *. unfold h2 in *. rewrite length_insert in Hlen', Hframe'.
      exists st'. split_and!.
      * done.
      * done.
      * lia.
      * intros a Ha Hay. rewrite Hframe' by lia.
        rewrite list_lookup_insert_ne by done.
        symmetry. by apply prefix_lookup_lt.
      * by etrans.
      * exists ((key, v') :: rest'). split.
        -- constructor; [|done]. split; [done |]. simpl.
           by eapply rename_val_mono.
        -- by rewrite <- app_assoc in Hyo'.
      * intros l y' Hl Hl0. destruct (st1.2 !! l) as [y1|] eqn:Hl1.
        -- assert (y1 = y') as ->.
           { pose proof (lookup_weaken _ _ _ _ Hl1 Hsub') as Hw. congruence. }
           destruct (Hnew1 l y' Hl1 Hl0) as [Hge Hcp]. split; [done |].
           destruct Hinv1 as (_ & Hrange1 & _).
           destruct (Hrange1 l y' Hl1) as [_ Hy'].
           eapply copied_mono; [exact Hcp | done |].
           rewrite Hframe' by lia. apply list_lookup_insert_ne. lia.
        -- destruct (Hnew' l y' Hl Hl1) as [Hge Hcp]. simpl in Hge.
           rewrite length_insert in Hge. split; [lia | done].
Qed.

Lemma fill_list_ok (rest done' : list val) (st : copy_state) :
  copy_inv h0 st ->
  Forall (val_ok (length h0)) rest ->
  length h0 < f + size st.2 ->
  st.1 !! y = Some (OList done') ->
  exists st',
    fill_list copy y rest st = Some st' ∧
    copy_inv h0 st' ∧
    length st.1 <= length st'.1 ∧
    (forall a, a < length st.1 -> a ≠ y -> st'.1 !! a = st.1 !! a) ∧
    st.2 ⊆ st'.2 ∧
    (exists rest',
        Forall2 (fun v v' => rename_val st'.2 v = Some v') rest rest' ∧
        st'.1 !! y = Some (OList (done' ++ rest'))) ∧
    (forall l y', st'.2 !! l = Some y' -> st.2 !! l = None ->
                  length st.1 <= y' ∧ copied h0 st' l y').
Proof.
  revert done' st.
  induction rest as [|a rest IH]; intros done' st Hinv Hok Hfuel Hyo.
  - exists st. simpl. split_and!; try done.
    + exists []. split; [constructor | by rewrite app_nil_r].
    + intros l y' Hl Hl'. congruence.
  - rewrite Forall_cons in Hok. destruct Hok as [Hval Hok].
    destruct (Hcopy a st Hinv Hval Hfuel)
      as (v' & st1 & Hc & Hinv1 & Hpre1 & Hsub1 & Hren1 & Hnew1).
    assert (y < length st.1) as Hylt by (by eapply lookup_lt_Some).
    pose proof (prefix_length _ _ Hpre1) as Hlen1.
    assert (st1.1 !! y = Some (OList done')) as Hyo1
      by (by eapply prefix_lookup_Some).
    simpl. rewrite Hc. unfold store_append. rewrite Hyo1.
    set (h2 := <[y := OList (done' ++ [v'])]> st1.1).
    destruct (IH (done' ++ [v']) (h2, st1.2))
      as (st' & Hfill & Hinv' & Hlen' & Hframe' & Hsub' & (rest' & Hrest' & Hyo') & Hnew').
    + by apply copy_inv_insert.
    + done.
    + simpl. pose proof (map_subseteq_size _ _ Hsub1). lia.
    + simpl. unfold h2. apply list_lookup_insert_eq. lia.
    + simpl in *. unfold h2 in *. rewrite length_insert in Hlen', Hframe'.
      exists st'. split_and!.
      * done.
      * done.
      * lia.
      * intros b Hb Hby. rewrite Hframe' by lia.
        rewrite list_lookup_insert_ne by done.
        symmetry. by apply prefix_lookup_lt.
      * by etrans.
      * exists (v' :: rest'). split.
        -- constructor; [|done]. by eapply rename_val_mono.
        -- by rewrite <- app_assoc in Hyo'.
      * intros l y' Hl Hl0. destruct (st1.2 !! l) as [y1|] eqn:Hl1.
        -- assert (y1 = y') as ->.
           { pose proof (lookup_weaken _ _ _ _ Hl1 Hsub') as Hw. congruence. }
           destruct (Hnew1 l y' Hl1 Hl0) as [Hge Hcp]. split; [done |].
           destruct Hinv1 as (_ & Hrange1 & _).
           destruct (Hrange1 l y' Hl1) as [_ Hy'].
           eapply copied_mono; [exact Hcp | done |].
           rewrite Hframe' by lia. apply list_lookup_insert_ne. lia.
        -- destruct (Hnew' l y' Hl Hl1) as [Hge Hcp]. simpl in Hge.
           rewrite length_insert in Hge. split; [lia | done].
Qed.
End FillLoops.

(** The copier meets its specification at every fuel: it returns, provided
    the fuel exceeds the number of objects not yet entered. *)
Lemma deepcopy_memo_ok (fuel : nat) : copier_ok h0 (deepcopy_memo fuel) fuel.
Proof.
  induction fuel as [|fuel IH]; intros x st Hinv Hx Hfuel.
  - pose proof (memo_size_le _ _ Hinv). lia.
  - destruct x as [| | | |l];
      try (eexists _, st; split_and!; [done ..|]; intros l y ? ?; congruence).
    simpl in Hx. simpl. destruct (st.2 !! l) as [y|] eqn:Hm.
    { exists (VRef y), st. split_and!; try done.
      - simpl. by rewrite Hm.
      - intros l' y' ? ?. congruence. }
    destruct (lookup_lt_is_Some_2 h0 l Hx) as [o Ho].
    pose proof Hinv as (Hpre & Hrange & _).
    pose proof (prefix_length _ _ Hpre) as Hlen.
    rewrite (prefix_lookup_Some _ _ _ _ Ho Hpre).
    destruct (store_wf_lookup _ _ _ Hwf Ho) as [Hnd Hvals].
    set (y := length st.1).
    assert (size (<[l := y]> st.2) = S (size st.2)) as Hsize
      by (by apply map_size_insert_None).
    assert (st.2 ⊆ <[l := y]> st.2) as Hsub0 by (by apply insert_subseteq).
    destruct o as [items|elems].
    + destruct (fill_dict_ok _ _ IH y Hlen items [] (st.1 ++ [ODict []], <[l := y]> st.2))
        as (st' & Hfill & Hinv' & Hlen' & Hframe' & Hsub' & (items' & Hitems' & Hyo') & Hnew').
      * by apply copy_inv_alloc.
      * done.
      * simpl. lia.
      * simpl. apply lookup_alloc.
      * done.
      * rewrite Hfill. simpl in *. rewrite length_app in Hlen', Hframe'. simpl in *.
        exists (VRef y), st'. split_and!; try done.
        -- apply prefix_intro; [lia |]. intros a Ha.
           rewrite Hframe' by (unfold y; lia). by apply lookup_app_l.
        -- by etrans.
        -- simpl. rewrite (lookup_weaken _ _ l y (lookup_insert_eq _ _ _) Hsub'). done.
        -- intros l' y' Hl' Hl0'. destruct (decide (l' = l)) as [->|Hne].
           ++ pose proof (lookup_weaken _ _ l y (lookup_insert_eq _ _ _) Hsub') as Hw.
              assert (y' = y) as -> by congruence. split; [done |].
              exists (ODict items), (ODict items'). done.
           ++ destruct (Hnew' l' y') as [Hge Hcp]; [done | by rewrite lookup_insert_ne |].
              rewrite length_app in Hge. simpl in Hge. split; [lia | done].
    + destruct (fill_list_ok _ _ IH y Hlen elems [] (st.1 ++ [OList []], <[l := y]> st.2))
        as (st' & Hfill & Hinv' & Hlen' & Hframe' & Hsub' & (elems' & Helems' & Hyo') & Hnew').
      * by apply copy_inv_alloc.
      * done.
      * simpl. lia.
      * simpl. apply lookup_alloc.
      * rewrite Hfill. simpl in *. rewrite length_app in Hlen', Hframe'. simpl in *.
        exists (VRef y), st'. split_and!; try done.
        -- apply prefix_intro; [lia |]. intros a Ha.
           rewrite Hframe' by (unfold y; lia). by apply lookup_app_l.
        -- by etrans.
        -- simpl. rewrite (lookup_weaken _ _ l y (lookup_insert_eq _ _ _) Hsub'). done.
        -- intros l' y' Hl' Hl0'. destruct (decide (l' = l)) as [->|Hne].
           ++ pose proof (lookup_weaken _ _ l y (lookup_insert_eq _ _ _) Hsub') as Hw.
              assert (y' = y) as -> by congruence. split; [done |].
              exists (OList elems), (OList elems'). done.
           ++ destruct (Hnew' l' y') as [Hge Hcp]; [done | by rewrite lookup_insert_ne |].
              rewrite length_app in Hge. simpl in Hge. split; [lia | done].
Qed.
End Deepcopy.

Lemma deepcopy_spec (h : heap) (x : val) :
  store_wf h -> val_ok (length h) x ->
  exists r h' memo,
    deepcopy x h = Ok r h' ∧
    h `prefix_of` h' ∧
    rename_val memo x = Some r ∧
    (forall l y, memo !! l = Some y ->
                 length h <= y < length h' ∧ copied h (h', memo) l y) ∧
    (forall a, length h <= a < length h' -> exists l, memo !! l = Some a).
Proof.
  intros Hwf Hx.
  destruct (deepcopy_memo_ok h Hwf (S (length h)) x (h, ∅))
    as (r & [h' memo] & Hc & (_ & Hrange & Hall) & Hpre & _ & Hren & Hnew).
  - split_and!; simpl; [done | |lia]. intros l y. by rewrite lookup_empty.
  - done.
  - simpl. lia.
  - exists r, h', memo. unfold deepcopy. rewrite Hc. simpl in *.
    split_and!; try done. intros l y Hl. split.
    + apply Hrange in Hl. lia.
    + apply Hnew; [done | apply lookup_empty].
Qed.

Lemma Forall2_fmap_eq {A B C} (R : A -> B -> Prop) (f : A -> C) (g : B -> C)
    (l : list A) (k : list B) :
  Forall2 R l k -> (forall x y, R x y -> f x = g y) -> f <$> l = g <$> k.
Proof.
  intros HR Hfg. induction HR as [|x y l k Hxy _ IH]; [done |].
  rewrite !fmap_cons. f_equal; [by apply Hfg | done].
Qed.

Lemma renamed_obj_vals (memo : gmap loc loc) (o o' : obj) :
  renamed memo o o' ->
  Forall2 (fun v v' => rename_val memo v = Some v') (obj_vals o) (obj_vals o').
Proof.
  destruct o as [items|elems], o' as [items'|elems']; simpl; try done.
  intros Hren. apply Forall2_fmap. eapply Forall2_impl; [exact Hren |].
  by intros kv kv' [_ ?].
Qed.

Lemma renamed_obj_wf (memo : gmap loc loc) (o o' : obj) :
  renamed memo o o' -> obj_wf o -> obj_wf o'.
Proof.
  destruct o as [items|elems], o' as [items'|elems']; simpl; try done.
  intros Hren. assert (dict_keys items = dict_keys items') as ->; [|done].
  unfold dict_keys. induction Hren as [|kv kv' ? ? [Hk _] _ IH]; [done |].
  rewrite !fmap_cons. by f_equal.
Qed.

Section DeepcopyResult.
Variables (h h' : heap) (memo : gmap loc loc).
Hypothesis Hwf : store_wf h.
Hypothesis Hpre : h `prefix_of` h'.
Hypothesis Hcopied : forall l y, memo !! l = Some y ->
  length h <= y < length h' ∧ copied h (h', memo) l y.
Hypothesis Hall : forall a, length h <= a < length h' -> exists l, memo !! l = Some a.

Lemma rename_val_ok (v v' : val) : rename_val memo v = Some v' -> val_ok (length h') v'.
Proof.
  destruct v as [| | | |l]; simpl; try (by intros [= <-]).
  destruct (memo !! l) as [y|] eqn:Hl; simpl; [|done]. intros [= <-]. simpl.
  apply Hcopied in Hl. lia.
Qed.

Lemma deepcopy_store_wf : store_wf h'.
Proof.
  apply Forall_lookup. intros a o' Ha.
  destruct (decide (a < length h)) as [Hlt|Hge].
  - rewrite <- (prefix_lookup_lt _ _ _ Hlt Hpre) in Ha.
    destruct (store_wf_lookup _ _ _ Hwf Ha) as [Ho Hvals]. split; [done |].
    eapply Forall_impl; [exact Hvals |]. intros v. apply val_ok_mono.
    by apply prefix_length.
  - pose proof (lookup_lt_Some _ _ _ Ha) as Halt.
    destruct (Hall a) as [l Hl]; [lia |].
    destruct (Hcopied l a Hl) as [_ (o & o2 & Ho & Ho2 & Hren)]. simpl in *.
    assert (o2 = o') as -> by congruence.
    destruct (store_wf_lookup _ _ _ Hwf Ho) as [Hok _].
    split; [by eapply renamed_obj_wf |].
    apply renamed_obj_vals in Hren. apply Forall_forall. intros v' Hv'.
    apply list_elem_of_lookup in Hv' as [i Hi].
    destruct (Forall2_lookup_r _ _ _ _ _ Hren Hi) as (v & _ & Hv).
    by eapply rename_val_ok.
Qed.

(** The copy reads as the original read when the copy was taken. *)
Lemma view_copy (d : nat) (v v' : val) :
  rename_val memo v = Some v' -> view d h' v' = view d h v.
Proof.
  revert v v'. induction d as [|d IH]; intros [| | | |l] v'; simpl;
    try (by intros [= <-]).
  - destruct (memo !! l); simpl; [|done]. by intros [= <-].
  - destruct (memo !! l) as [y|] eqn:Hl; simpl; [|done]. intros [= <-]. simpl.
    destruct (Hcopied l y Hl) as [_ (o & o' & Ho & Ho' & Hren)]. simpl in *.
    rewrite Ho, Ho'. destruct o as [items|elems], o' as [items'|elems']; try done;
      simpl in Hren; f_equal.
    + symmetry. eapply Forall2_fmap_eq; [exact Hren |].
      intros kv kv' [Hk Hv]. simpl. f_equal; [done |]. symmetry. by apply IH.
    + symmetry. eapply Forall2_fmap_eq; [exact Hren |].
      intros v v' Hv. symmetry. by apply IH.
Qed.

(** The copy reads the same in every store that agrees with [h'] on the
    objects allocated by the copy: nothing of the original is shared. *)
Lemma view_isolated (h'' : heap) :
  (forall a, length h <= a < length h' -> h'' !! a = h' !! a) ->
  forall d v v', rename_val memo v = Some v' -> view d h'' v' = view d h' v'.
Proof.
  intros Hag. induction d as [|d IH]; intros [| | | |l] v'; simpl;
    try (by intros [= <-]).
  - destruct (memo !! l); simpl; [|done]. by intros [= <-].
  - destruct (memo !! l) as [y|] eqn:Hl; simpl; [|done]. intros [= <-]. simpl.
    destruct (Hcopied l y Hl) as [Hy (o & o' & Ho & Ho' & Hren)]. simpl in *.
    rewrite (Hag y Hy), Ho'. apply renamed_obj_vals in Hren.
    destruct o' as [items'|elems']; simpl in *; f_equal.
    + apply list_fmap_ext. intros i [k v'] Hi. simpl. f_equal.
      assert (items'.*2 !! i = Some v') as Hi2 by (by rewrite list_lookup_fmap, Hi).
      destruct (Forall2_lookup_r _ _ _ _ _ Hren Hi2) as (v & _ & Hv). eauto.
    + apply list_fmap_ext. intros i v' Hi.
      destruct (Forall2_lookup_r _ _ _ _ _ Hren Hi) as (v & _ & Hv). eauto.
Qed.
End DeepcopyResult.

(** The contract of [copy.deepcopy] on a well-formed store: it returns; the
    store only grows, and stays well-formed; the result reads as the
    argument does; and it shares no object with what existed before. *)
Lemma deepcopy_contract (h : heap) (x : val) :
  store_wf h -> val_ok (length h) x ->
  exists r h',
    deepcopy x h = Ok r h' ∧
    h `prefix_of` h' ∧
    store_wf h' ∧
    val_ok (length h') r ∧
    (forall d, view d h' r = view d h x) ∧
    (forall h'', (forall a, length h <= a < length h' -> h'' !! a = h' !! a) ->
                 forall d, view d h'' r = view d h' r).
Proof.
  intros Hwf Hx.
  destruct (deepcopy_spec h x Hwf Hx) as (r & h' & memo & Hc & Hpre & Hren & Hcp & Hall).
  exists r, h'. split_and!; [done | done | | | |].
  - by eapply deepcopy_store_wf.
  - by eapply rename_val_ok.
  - intros d. by eapply view_copy.
  - intros h'' Hag d. by eapply view_isolated.
Qed.

Lemma truthy_total (h : heap) (v : val) :
  val_ok (length h) v -> exists b, truthy v h = Ok b h.
Proof.
  destruct v as [| | | |l]; simpl; try (by eexists). intros Hl.
  destruct (lookup_lt_is_Some_2 h l Hl) as [o Ho].
  rewrite (bind_ok _ _ _ _ _ (deref_ok _ _ _ Ho)). destruct o; by eexists.
Qed.

(** [x or {}] returns; the result is [x], or a new empty dict when [x] is
    false, and in both cases it reads as [x] does when [x] is a dict. *)
Lemma or_empty_dict_contract (h : heap) (v : val) :
  store_wf h -> val_ok (length h) v ->
  exists c h1,
    or_empty_dict v h = Ok c h1 ∧
    h `prefix_of` h1 ∧ store_wf h1 ∧ val_ok (length h1) c ∧
    (forall l items, v = VRef l -> h !! l = Some (ODict items) ->
                     forall d, view d h1 c = view d h v).
Proof.
  intros Hwf Hv. destruct (truthy_total h v Hv) as [b Hb].
  unfold or_empty_dict. rewrite (bind_ok _ _ _ _ _ Hb). destruct b.
  - exists v, h. split_and!; done.
  - exists (VRef (length h)), (h ++ [ODict []]). split_and!.
    + done.
    + by apply prefix_app_r.
    + apply store_wf_alloc; [done | apply NoDup_nil_2 | constructor].
    + simpl. rewrite length_app. simpl. lia.
    + intros l items -> Hl. rewrite (truthy_dict _ _ _ Hl) in Hb.
      injection Hb as Hb. apply negb_false_iff, bool_decide_eq_true in Hb as ->.
      intros [|d]; simpl; [done |]. by rewrite lookup_alloc, Hl.
Qed.


(** ** Underscore-prefixed keys *)

#[global] Instance underscore_key_inj : Inj (=) (=) (String.append "_").
Proof. intros a b Hab. by injection Hab. Qed.

Lemma dict_keys_underscore (items : list (string * val)) :
  dict_keys (underscore <$> items) = String.append "_" <$> dict_keys items.
Proof. unfold dict_keys. rewrite <- !list_fmap_compose. done. Qed.

Lemma underscore_NoDup (items : list (string * val)) :
  NoDup (dict_keys items) -> NoDup (dict_keys (underscore <$> items)).
Proof. intros Hnd. rewrite dict_keys_underscore. by apply (NoDup_fmap_2 _). Qed.

Lemma dict_get_underscore (k : string) (items : list (string * val)) :
  dict_get ("_" +:+ k) (underscore <$> items) = dict_get k items.
Proof.
  induction items as [|[k' v'] items IH]; [done |].
  rewrite fmap_cons. unfold underscore at 1. simpl.
  destruct (decide (k = k')) as [->|Hne].
  - by rewrite decide_True.
  - rewrite decide_False; [done |]. intros Heq. by injection Heq.
Qed.

Lemma update_at_ok (h : heap) (l : loc) (d e : list (string * val)) :
  h !! l = Some (ODict d) ->
  update_at l e h = Ok tt (<[l := ODict (dict_update d e)]> h).
Proof. unfold update_at. by intros ->. Qed.

Lemma insert_alloc (h k : heap) (o o' : obj) :
  <[length h := o']> (h ++ o :: k) = h ++ o' :: k.
Proof. rewrite insert_app_r_alt by lia. by rewrite Nat.sub_diag. Qed.

(** ** Reads do not depend on what is allocated later *)

Lemma kwargs_of_spec (h h' : heap) (v : val) (kwargs : list (string * val)) :
  kwargs_of v h = Ok kwargs h' <-> spec_kwargs h v = Some kwargs ∧ h' = h.
Proof.
  unfold spec_kwargs, kwargs_of, bind, deref, ret, raise.
  destruct v as [| | | |l]; try (split; [done | by intros [? _]]).
  destruct (h !! l) as [[items|elems]|]; try (split; [done | by intros [? _]]).
  split.
  - intros Heq. injection Heq as -> ->. done.
  - intros [Heq ->]. by injection Heq as ->.
Qed.

Lemma spec_kwargs_prefix (h0 hi : heap) (v : val) :
  h0 `prefix_of` hi -> val_ok (length h0) v -> spec_kwargs hi v = spec_kwargs h0 v.
Proof.
  intros Hpre Hv. unfold spec_kwargs, kwargs_of, bind, deref.
  destruct v as [| | | |l]; try done. simpl in Hv.
  rewrite <- (prefix_lookup_lt _ _ _ Hv Hpre).
  by destruct (h0 !! l) as [[items|elems]|].
Qed.

Lemma spec_kwargs_wf (h : heap) (v : val) (kwargs : list (string * val)) :
  store_wf h -> spec_kwargs h v = Some kwargs ->
  NoDup (dict_keys kwargs) ∧ Forall (val_ok (length h)) kwargs.*2.
Proof.
  intros Hwf. unfold spec_kwargs, kwargs_of, bind, deref, ret, raise.
  destruct v as [| | | |l]; try done.
  destruct (h !! l) as [[items|elems]|] eqn:Hl; try done. intros [= <-].
  exact (store_wf_lookup _ _ _ Hwf Hl).
Qed.

Lemma iter_values_heap (h h' : heap) (v : val) (specs : list val) :
  iter_values v h = Ok specs h' -> h' = h.
Proof.
  unfold iter_values, bind, deref, ret, raise.
  destruct v as [| | | |l]; try done; [by intros [= _ ->] |].
  destruct (h !! l) as [[items|elems]|]; try done; by intros [= _ ->].
Qed.

Lemma iter_values_prefix (h0 hi : heap) (v : val) :
  h0 `prefix_of` hi -> val_ok (length h0) v ->
  iter_values v hi = retag (iter_values v h0) hi.
Proof.
  intros Hpre Hv. unfold iter_values, bind, deref, ret, raise.
  destruct v as [| | | |l]; try done. simpl in Hv.
  rewrite <- (prefix_lookup_lt _ _ _ Hv Hpre).
  destruct (lookup_lt_is_Some_2 h0 l Hv) as [[items|elems] ->]; done.
Qed.

Lemma iter_values_wf (h : heap) (v : val) (specs : list val) :
  store_wf h -> iter_values v h = Ok specs h -> Forall (val_ok (length h)) specs.
Proof.
  intros Hwf. unfold iter_values, bind, deref, ret, raise.
  destruct v as [| | | |l]; try done.
  - intros [= <-]. apply Forall_fmap. by apply Forall_true.
  - destruct (h !! l) as [[items|elems]|] eqn:Hl; try done; intros [= <-].
    + apply Forall_fmap. by apply Forall_true.
    + exact (proj2 (store_wf_lookup _ _ _ Hwf Hl)).
Qed.

Lemma truthy_prefix (h0 hi : heap) (v : val) :
  h0 `prefix_of` hi -> val_ok (length h0) v ->
  truthy v hi = retag (truthy v h0) hi.
Proof.
  intros Hpre Hv. unfold truthy, bind, deref, ret.
  destruct v as [| | | |l]; try done. simpl in Hv.
  rewrite <- (prefix_lookup_lt _ _ _ Hv Hpre).
  destruct (lookup_lt_is_Some_2 h0 l Hv) as [[items|elems] ->]; done.
Qed.

Lemma extras_arg_wf (n : nat) (kwargs : list (string * val)) :
  NoDup (dict_keys kwargs) -> Forall (val_ok n) kwargs.*2 ->
  NoDup (dict_keys (extras_arg kwargs)) ∧ Forall (val_ok n) (extras_arg kwargs).*2.
Proof.
  unfold extras_arg, dict_keys.
  induction kwargs as [|[k v] kwargs IH]; intros Hnd Hok.
  - split; [apply NoDup_nil_2 | constructor].
  - rewrite fmap_cons in Hnd. rewrite fmap_cons in Hok.
    apply NoDup_cons in Hnd as [Hk Hnd].
    apply Forall_cons in Hok as [Hv Hok]. destruct (IH Hnd Hok) as [IHnd IHok].
    rewrite filter_cons. case_decide; [|done].
    rewrite !fmap_cons. split.
    + apply NoDup_cons. split; [|done]. intros Hin. apply Hk.
      apply list_elem_of_fmap in Hin as (kv & -> & Hin).
      apply list_elem_of_filter in Hin as [_ Hin].
      apply list_elem_of_fmap. by exists kv.
    + by apply Forall_cons.
Qed.

Lemma config_arg_ok (n : nat) (kwargs : list (string * val)) :
  Forall (val_ok n) kwargs.*2 -> val_ok n (config_arg kwargs).
Proof.
  intros Hok. unfold config_arg.
  destruct (dict_get "config" kwargs) as [v|] eqn:Hget; [|done]. simpl.
  apply dict_get_Some_elem in Hget.
  apply (proj1 (Forall_forall _ _) Hok). apply list_elem_of_fmap.
  by exists ("config", v).
Qed.

Section Loading.
Context {PluginType : Type} `{PluginTypeEnum PluginType}.
Implicit Types (h : heap) (p : EnvironmentPluginConfig PluginType)
  (t : PluginType) (kwargs : list (string * val)).

(** A call that returns bound its arguments. *)
Lemma EnvironmentPluginConfig_call_inv t kwargs h p h' :
  EnvironmentPluginConfig_call t kwargs h = Ok p h' ->
  spec_name kwargs = Some (name p) ∧ plugin_type p = t.
Proof.
  unfold EnvironmentPluginConfig_call, spec_name.
  case_bool_decide; [done |]. case_bool_decide; [done |].
  destruct (dict_get "name" kwargs) as [nm|]; [|done].
  intros (ex & h1 & _ & Hinit)%bind_ok_inv.
  unfold EnvironmentPluginConfig_init in Hinit.
  destruct nm as [| | |n|]; try done.
  apply bind_ok_inv in Hinit as (c & h2 & _ & Hinit).
  apply bind_ok_inv in Hinit as (c' & h3 & _ & Hinit).
  injection Hinit as <- _. done.
Qed.

(** A call whose arguments bind returns, on a well-formed store. *)
Lemma EnvironmentPluginConfig_call_ok t kwargs h (n : string) :
  store_wf h ->
  NoDup (dict_keys kwargs) -> Forall (val_ok (length h)) kwargs.*2 ->
  spec_name kwargs = Some n ->
  exists p h',
    EnvironmentPluginConfig_call t kwargs h = Ok p h' ∧
    plugin_type p = t ∧ name p = n ∧
    h `prefix_of` h' ∧ store_wf h' ∧ val_ok (length h') (config p) ∧
    extras p = VRef (length h) ∧
    h' !! length h = Some (ODict (extras_arg kwargs)) ∧
    (forall l items, config_arg kwargs = VRef l -> h !! l = Some (ODict items) ->
                     forall d, view d h' (config p) = view d h (VRef l)) ∧
    (config_arg kwargs = VNone -> view 1 h' (config p) = TDict []) ∧
    (forall b, truthy (config_arg kwargs) h = Ok b h ->
               forall d, view d h' (config p) =
                         if b then view d h (config_arg kwargs)
                         else view d [ODict []] (VRef 0)).
Proof.
  intros Hwf Hnd Hok Hname.
  unfold EnvironmentPluginConfig_call. unfold spec_name in Hname.
  case_bool_decide; [done |]. case_bool_decide; [done |].
  destruct (dict_get "name" kwargs) as [[| | |nm|]|]; try done.
  injection Hname as ->.
  destruct (extras_arg_wf (length h) kwargs Hnd Hok) as [Hexw Hexv].
  set (h1 := h ++ [ODict (extras_arg kwargs)]).
  assert (store_wf h1) as Hwf1 by (by apply store_wf_alloc).
  assert (h `prefix_of` h1) as Hpre1 by (by apply prefix_app_r).
  pose proof (prefix_length _ _ Hpre1) as Hlen1.
  assert (val_ok (length h1) (config_arg kwargs)) as Hcfg.
  { eapply val_ok_mono; [exact Hlen1 |]. by apply config_arg_ok. }
  destruct (or_empty_dict_contract h1 _ Hwf1 Hcfg)
    as (c & h2 & Hor & Hpre2 & Hwf2 & Hc & Hview2).
  destruct (deepcopy_contract h2 c Hwf2 Hc)
    as (r & h' & Hdc & Hpre' & Hwf' & Hr & Hcopy & _).
  rewrite (bind_ok _ _ _ _ _ (eq_refl : alloc _ h = Ok (length h) h1)).
  unfold EnvironmentPluginConfig_init.
  rewrite (bind_ok _ _ _ _ _ Hor), (bind_ok _ _ _ _ _ Hdc).
  eexists _, h'. split; [reflexivity |]. cbn [config plugin_type name extras].
  assert (h1 `prefix_of` h') as Hpre1' by (by etrans).
  split_and!; try done.
  - by etrans.
  - eapply prefix_lookup_Some; [apply lookup_alloc | done].
  - intros l items Hl Hitems d. rewrite Hcopy.
    rewrite (Hview2 l items Hl (prefix_lookup_Some _ _ _ _ Hitems Hpre1)).
    rewrite Hl. apply view_prefix; [done | done |]. by eapply lookup_lt_Some.
  - intros Hnone. rewrite Hcopy. rewrite Hnone in Hor.
    rewrite or_empty_dict_None in Hor. injection Hor as <- <-.
    simpl. by rewrite lookup_alloc.
  - intros b Hb d. rewrite Hcopy.
    assert (truthy (config_arg kwargs) h1 = Ok b h1) as Hb1.
    { rewrite (truthy_prefix h h1); [by rewrite Hb | done | by apply config_arg_ok]. }
    unfold or_empty_dict in Hor. rewrite (bind_ok _ _ _ _ _ Hb1) in Hor. destruct b.
    + injection Hor as <- <-. apply view_prefix; [done | done |]. by apply config_arg_ok.
    + cbv [bind alloc ret] in Hor. injection Hor as <- <-.
      destruct d as [|d]; [done |]. cbn [view]. by rewrite lookup_alloc.
Qed.

Lemma built_from_mono h0 hi h' (s : string * val) p :
  store_wf hi -> hi `prefix_of` h' -> val_ok (length hi) (config p) ->
  built_from h0 hi s p -> built_from h0 h' s p.
Proof.
  intros Hwf Hpre Hcfg (kw & Hkw & Hkey & (a & Hex & Ha) & Hview).
  exists kw. split_and!; [done | done | |].
  - exists a. split; [done |]. by eapply prefix_lookup_Some.
  - intros b Hb d. rewrite (view_prefix hi h') by done. by apply Hview.
Qed.

Lemma built_from_all_mono h0 hi h' (specs : list (string * val))
    (ps : list (EnvironmentPluginConfig PluginType)) :
  store_wf hi -> hi `prefix_of` h' ->
  Forall (fun p => val_ok (length hi) (config p)) ps ->
  Forall2 (built_from h0 hi) specs ps -> Forall2 (built_from h0 h') specs ps.
Proof.
  intros Hwf Hpre Hok Hall. induction Hall as [|s p specs ps Hsp _ IH]; [constructor |].
  apply Forall_cons in Hok as [Hp Hok]. constructor; [|by apply IH].
  by eapply built_from_mono.
Qed.

Lemma config_ok_all_mono (n n' : nat) (ps : list (EnvironmentPluginConfig PluginType)) :
  n <= n' ->
  Forall (fun p => val_ok n (config p)) ps -> Forall (fun p => val_ok n' (config p)) ps.
Proof.
  intros Hn Hps. eapply Forall_impl; [exact Hps |]. intros p. by apply val_ok_mono.
Qed.

Section RawPlugins.
Variables (h0 : heap) (rt : string) (t : PluginType).
Hypothesis Hwf0 : store_wf h0.
Hypothesis Hrt : PluginType_of_value rt = Some t.

Lemma spec_key_inv (raw : val) (k : PluginType * string) :
  spec_key h0 (rt, raw) = Some k ->
  exists kwargs, spec_kwargs h0 raw = Some kwargs ∧ spec_name kwargs = Some k.2 ∧ k.1 = t.
Proof.
  unfold spec_key. simpl. rewrite Hrt.
  destruct (spec_kwargs h0 raw) as [kw|]; [|done].
  destruct (spec_name kw) as [n|] eqn:Hn; [|done]. intros [= <-]. by exists kw.
Qed.

(** One pass of the inner loop, on a spec that binds. *)
Lemma load_one_ok (raw : val) (kwargs : list (string * val)) (n : string) hi :
  h0 `prefix_of` hi -> store_wf hi -> val_ok (length h0) raw ->
  spec_kwargs h0 raw = Some kwargs -> spec_name kwargs = Some n ->
  exists p h2,
    kwargs_of raw hi = Ok kwargs hi ∧
    EnvironmentPluginConfig_call t kwargs hi = Ok p h2 ∧
    plugin_type p = t ∧ name p = n ∧
    hi `prefix_of` h2 ∧ store_wf h2 ∧ val_ok (length h2) (config p) ∧
    built_from h0 h2 (rt, raw) p.
Proof.
  intros Hpre Hwfi Hraw Hkw Hname.
  pose proof (prefix_length _ _ Hpre) as Hlen.
  destruct (spec_kwargs_wf _ _ _ Hwf0 Hkw) as [Hnd Hok].
  assert (Forall (val_ok (length hi)) kwargs.*2) as Hoki.
  { eapply Forall_impl; [exact Hok |]. intros v. by apply val_ok_mono. }
  destruct (EnvironmentPluginConfig_call_ok t kwargs hi n Hwfi Hnd Hoki Hname)
    as (p & h2 & Hcall & Hty & Hnm & Hpre2 & Hwf2 & Hcfg & Hex & Hexo & _ & _ & Hview).
  exists p, h2. split_and!; try done.
  - apply kwargs_of_spec. split; [|done]. by rewrite (spec_kwargs_prefix h0 hi).
  - exists kwargs. split_and!; [done | | |].
    + unfold spec_key. simpl. by rewrite Hrt, Hkw, Hname, Hty, Hnm.
    + by exists (length hi).
    + intros b Hb d.
      pose proof (config_arg_ok _ _ Hok) as Hcfg0.
      assert (truthy (config_arg kwargs) hi = Ok b hi) as Hbi.
      { rewrite (truthy_prefix h0 hi); [by rewrite Hb | done | done]. }
      rewrite (Hview b Hbi d). destruct b; [|done]. by apply view_prefix.
Qed.

Lemma load_raw_plugins_ok (specs : list val) :
  forall (m : list ((PluginType * string) * EnvironmentPluginConfig PluginType)) hi,
    h0 `prefix_of` hi -> store_wf hi ->
    Forall (val_ok (length h0)) specs ->
    Forall (fun raw => is_Some (spec_key h0 (rt, raw))) specs ->
    exists ps h',
      load_raw_plugins t specs m hi = Ok (dict_update m (entry <$> ps)) h' ∧
      hi `prefix_of` h' ∧ store_wf h' ∧
      Forall (fun p => val_ok (length h') (config p)) ps ∧
      Forall2 (built_from h0 h') (pair rt <$> specs) ps.
Proof.
  induction specs as [|raw specs IH]; intros m hi Hpre Hwfi Hok Hkeys.
  - exists [], hi. split_and!; [done | done | done | constructor | constructor].
  - apply Forall_cons in Hok as [Hraw Hok].
    apply Forall_cons in Hkeys as [[k Hk] Hkeys].
    destruct (spec_key_inv raw k Hk) as (kw & Hkw & Hname & _).
    destruct (load_one_ok raw kw k.2 hi Hpre Hwfi Hraw Hkw Hname)
      as (p & h2 & Hkwargs & Hcall & Hty & Hnm & Hpre2 & Hwf2 & Hcfg & Hbuilt).
    destruct (IH (dict_set (t, name p) p m) h2) as (ps & h' & Hload & Hpre' & Hwf' & Hcfgs & Hall);
      [by etrans | done | done | done |].
    exists (p :: ps), h'. cbn [load_raw_plugins].
    rewrite (bind_ok _ _ _ _ _ Hkwargs), (bind_ok _ _ _ _ _ Hcall), Hload.
    pose proof (prefix_length _ _ Hpre') as Hlen'.
    split_and!.
    + rewrite fmap_cons. unfold entry at 2. rewrite dict_update_cons. by rewrite Hty.
    + by etrans.
    + done.
    + constructor; [by eapply val_ok_mono | done].
    + rewrite fmap_cons. constructor; [by apply (built_from_mono h0 h2 h') | done].
Qed.

Lemma load_raw_plugins_inv (specs : list val) :
  forall (m m' : list ((PluginType * string) * EnvironmentPluginConfig PluginType)) hi h',
    h0 `prefix_of` hi -> store_wf hi ->
    Forall (val_ok (length h0)) specs ->
    load_raw_plugins t specs m hi = Ok m' h' ->
    Forall (fun raw => is_Some (spec_key h0 (rt, raw))) specs.
Proof.
  induction specs as [|raw specs IH]; intros m m' hi h' Hpre Hwfi Hok Hload;
    [constructor |].
  apply Forall_cons in Hok as [Hraw Hok]. cbn [load_raw_plugins] in Hload.
  apply bind_ok_inv in Hload as (kw & h1 & Hkwargs & Hload).
  apply kwargs_of_spec in Hkwargs as [Hkw ->].
  rewrite (spec_kwargs_prefix h0 hi) in Hkw by done.
  apply bind_ok_inv in Hload as (p & h2 & Hcall & Hload).
  destruct (EnvironmentPluginConfig_call_inv _ _ _ _ _ Hcall) as [Hname _].
  destruct (load_one_ok raw kw (name p) hi Hpre Hwfi Hraw Hkw Hname)
    as (p' & h2' & _ & Hcall' & _ & _ & Hpre2 & Hwf2 & _ & _).
  rewrite Hcall in Hcall'. injection Hcall' as <- <-.
  constructor.
  - unfold spec_key. simpl. rewrite Hrt, Hkw, Hname. by eexists.
  - eapply (IH _ _ h2 h'); [by etrans | done | done | exact Hload].
Qed.
End RawPlugins.

Section PluginTypes.
Variable h0 : heap.
Hypothesis Hwf0 : store_wf h0.

Lemma raw_specs_cons (rt : string) (v : val) (specs : list val)
    (items : list (string * val)) :
  iter_values v h0 = Ok specs h0 ->
  raw_specs h0 ((rt, v) :: items) = (pair rt <$> specs) ++ raw_specs h0 items.
Proof. intros Hit. unfold raw_specs. rewrite bind_cons. simpl. by rewrite Hit. Qed.

Lemma load_plugin_types_ok (items : list (string * val)) :
  forall (m : list ((PluginType * string) * EnvironmentPluginConfig PluginType)) hi,
    h0 `prefix_of` hi -> store_wf hi ->
    Forall (val_ok (length h0)) items.*2 ->
    loadable h0 items ->
    exists ps h',
      load_plugin_types items m hi = Ok (dict_update m (entry <$> ps)) h' ∧
      hi `prefix_of` h' ∧ store_wf h' ∧
      Forall (fun p => val_ok (length h') (config p)) ps ∧
      Forall2 (built_from h0 h') (raw_specs h0 items) ps.
Proof.
  induction items as [|[rt v] items IH]; intros m hi Hpre Hwfi Hok [Htypes Hspecs].
  - exists [], hi. split_and!; [done | done | done | constructor | constructor].
  - rewrite fmap_cons in Hok. apply Forall_cons in Hok as [Hv Hok].
    apply Forall_cons in Htypes as [[[t Ht] [specs Hit]] Htypes]. simpl in Ht, Hit.
    rewrite (raw_specs_cons _ _ _ _ Hit) in Hspecs.
    apply Forall_app in Hspecs as [Hspecs1 Hspecs2].
    rewrite Forall_fmap in Hspecs1.
    destruct (load_raw_plugins_ok h0 rt t Hwf0 Ht specs m hi Hpre Hwfi
                (iter_values_wf _ _ _ Hwf0 Hit) Hspecs1)
      as (ps1 & h1 & Hload1 & Hpre1 & Hwf1 & Hcfg1 & Hall1).
    destruct (IH (dict_update m (entry <$> ps1)) h1)
      as (ps2 & h' & Hload2 & Hpre2 & Hwf2 & Hcfg2 & Hall2);
      [by etrans | done | done | done |].
    exists (ps1 ++ ps2), h'. cbn [load_plugin_types]. rewrite Ht.
    assert (iter_values v hi = Ok specs hi) as Hiti
      by (by rewrite (iter_values_prefix h0 hi), Hit).
    rewrite (bind_ok _ _ _ _ _ Hiti), (bind_ok _ _ _ _ _ Hload1), Hload2.
    split_and!.
    + by rewrite fmap_app, dict_update_split.
    + by etrans.
    + done.
    + apply Forall_app. split; [|done].
      eapply config_ok_all_mono; [|exact Hcfg1]. by apply prefix_length.
    + rewrite (raw_specs_cons _ _ _ _ Hit). apply Forall2_app; [|done].
      by apply (built_from_all_mono h0 h1 h').
Qed.

Lemma load_plugin_types_inv (items : list (string * val)) :
  forall (m m' : list ((PluginType * string) * EnvironmentPluginConfig PluginType)) hi h',
    h0 `prefix_of` hi -> store_wf hi ->
    Forall (val_ok (length h0)) items.*2 ->
    load_plugin_types items m hi = Ok m' h' ->
    loadable h0 items.
Proof.
  induction items as [|[rt v] items IH]; intros m m' hi h' Hpre Hwfi Hok Hload.
  - split; constructor.
  - rewrite fmap_cons in Hok. apply Forall_cons in Hok as [Hv Hok].
    cbn [load_plugin_types] in Hload.
    destruct (PluginType_of_value rt) as [t|] eqn:Ht; [|done].
    apply bind_ok_inv in Hload as (specs & h1 & Hiti & Hload).
    pose proof (iter_values_heap _ _ _ _ Hiti) as ->.
    assert (iter_values v h0 = Ok specs h0) as Hit.
    { rewrite (iter_values_prefix h0 hi) in Hiti by done.
      destruct (iter_values v h0) as [xs hx| |] eqn:Hx; try done.
      injection Hiti as ->. by rewrite (iter_values_heap _ _ _ _ Hx) in *. }
    apply bind_ok_inv in Hload as (m1 & h1 & Hload1 & Hload2).
    pose proof (iter_values_wf _ _ _ Hwf0 Hit) as Hspecs.
    pose proof (load_raw_plugins_inv h0 rt t Hwf0 Ht specs _ _ _ _ Hpre Hwfi Hspecs Hload1)
      as Hkeys.
    destruct (load_raw_plugins_ok h0 rt t Hwf0 Ht specs m hi Hpre Hwfi Hspecs Hkeys)
      as (ps1 & h1' & Hload1' & Hpre1 & Hwf1 & _ & _).
    rewrite Hload1 in Hload1'. injection Hload1' as -> <-.
    destruct (IH _ _ h1 h' (transitivity Hpre Hpre1) Hwf1 Hok Hload2) as [Htypes Hrest].
    split.
    + constructor; [|done]. simpl. split; [by eexists | by exists specs].
    + rewrite (raw_specs_cons _ _ _ _ Hit). apply Forall_app. split; [|done].
      by rewrite Forall_fmap.
Qed.

(** What [load_plugin_types] returns: the plugins built from the raw specs,
    written into the index in their order. *)
Lemma load_plugin_types_spec (items : list (string * val))
    (m m' : list ((PluginType * string) * EnvironmentPluginConfig PluginType)) hi h' :
  h0 `prefix_of` hi -> store_wf hi ->
  Forall (val_ok (length h0)) items.*2 ->
  load_plugin_types items m hi = Ok m' h' ->
  exists ps,
    m' = dict_update m (entry <$> ps) ∧
    hi `prefix_of` h' ∧ store_wf h' ∧
    Forall2 (built_from h0 h') (raw_specs h0 items) ps.
Proof.
  intros Hpre Hwfi Hok Hload.
  pose proof (load_plugin_types_inv items m m' hi h' Hpre Hwfi Hok Hload) as Hgood.
  destruct (load_plugin_types_ok items m hi Hpre Hwfi Hok Hgood)
    as (ps & h2 & Hload' & Hpre' & Hwf' & _ & Hall).
  rewrite Hload in Hload'. injection Hload' as -> ->. by exists ps.
Qed.
End PluginTypes.

(** *** [EnvironmentConfig.__init__] on a raw plugins mapping *)

Lemma EnvironmentConfig_init_dict h (l : loc) (items : list (string * val)) :
  h !! l = Some (ODict items) ->
  EnvironmentConfig_init (VRef l) h =
  bind (load_plugin_types items []) (fun m => ret {| plugins := m |})
       (if decide (items = []) then h ++ [ODict []] else h).
Proof.
  intros Hl. unfold EnvironmentConfig_init, load_plugins. case_decide as Hitems.
  - subst items. rewrite (bind_ok _ _ _ _ _ (or_empty_dict_empty _ _ Hl)).
    unfold bind at 1 2. by rewrite (items_of_dict _ _ _ (lookup_alloc h _)).
  - rewrite (bind_ok _ _ _ _ _ (or_empty_dict_nonempty _ _ _ Hl Hitems)).
    unfold bind at 1 2. by rewrite (items_of_dict _ _ _ Hl).
Qed.

Lemma EnvironmentConfig_init_ok h (l : loc) (items : list (string * val)) :
  store_wf h -> h !! l = Some (ODict items) -> loadable h items ->
  exists ps cfg h',
    EnvironmentConfig_init (VRef l) h = Ok cfg h' ∧
    plugins cfg = dict_update [] (entry <$> ps) ∧
    h `prefix_of` h' ∧
    Forall2 (built_from h h') (raw_specs h items) ps.
Proof.
  intros Hwf Hl Hgood. rewrite (EnvironmentConfig_init_dict _ _ _ Hl).
  set (hi := if decide (items = []) then h ++ [ODict []] else h).
  assert (h `prefix_of` hi ∧ store_wf hi) as [Hpre Hwfi].
  { unfold hi. case_decide; [|done]. split; [by apply prefix_app_r |].
    apply store_wf_alloc; [done | apply NoDup_nil_2 | constructor]. }
  destruct (load_plugin_types_ok h Hwf items [] hi Hpre Hwfi
              (proj2 (store_wf_lookup _ _ _ Hwf Hl)) Hgood)
    as (ps & h' & Hload & Hpre' & _ & _ & Hall).
  exists ps, {| plugins := dict_update [] (entry <$> ps) |}, h'.
  rewrite (bind_ok _ _ _ _ _ Hload). split_and!; [done | done | by etrans | done].
Qed.

Lemma EnvironmentConfig_init_spec h (l : loc) (items : list (string * val))
    (cfg : EnvironmentConfig PluginType) h' :
  store_wf h -> h !! l = Some (ODict items) ->
  EnvironmentConfig_init (VRef l) h = Ok cfg h' ->
  loadable h items ∧
  exists ps,
    plugins cfg = dict_update [] (entry <$> ps) ∧
    Forall2 (built_from h h') (raw_specs h items) ps.
Proof.
  intros Hwf Hl Hinit.
  assert (loadable h items) as Hgood.
  { rewrite (EnvironmentConfig_init_dict _ _ _ Hl) in Hinit.
    apply bind_ok_inv in Hinit as (m & h1 & Hload & _).
    eapply (load_plugin_types_inv h Hwf items [] m _ h1); [| |
      exact (proj2 (store_wf_lookup _ _ _ Hwf Hl)) | exact Hload].
    - case_decide; [by apply prefix_app_r | done].
    - case_decide; [|done].
      apply store_wf_alloc; [done | apply NoDup_nil_2 | constructor]. }
  split; [done |].
  destruct (EnvironmentConfig_init_ok h l items Hwf Hl Hgood)
    as (ps & cfg' & h2 & Hinit' & Hidx & _ & Hall).
  rewrite Hinit in Hinit'. injection Hinit' as <- <-. by exists ps.
Qed.

(** *** What every index satisfies *)

Lemma index_ok_set t p (m : list ((PluginType * string) * EnvironmentPluginConfig PluginType)) :
  plugin_type p = t -> index_ok m -> index_ok (dict_set (t, name p) p m).
Proof.
  intros Hty [Hnd Hkeys]. split; [by apply dict_set_NoDup |].
  intros k p' [[= -> ->]|Hin]%dict_set_elem; [by rewrite Hty | by apply Hkeys].
Qed.

Lemma load_raw_plugins_index_ok t (specs : list val) :
  forall (m m' : list ((PluginType * string) * EnvironmentPluginConfig PluginType)) h h',
    load_raw_plugins t specs m h = Ok m' h' -> index_ok m -> index_ok m'.
Proof.
  induction specs as [|raw specs IH]; intros m m' h h' Hload Hm.
  - by injection Hload as <- _.
  - cbn [load_raw_plugins] in Hload.
    apply bind_ok_inv in Hload as (kw & h1 & _ & Hload).
    apply bind_ok_inv in Hload as (p & h2 & Hcall & Hload).
    apply EnvironmentPluginConfig_call_inv in Hcall as [_ Hty].
    eapply IH; [exact Hload |]. by apply index_ok_set.
Qed.

Lemma load_plugin_types_index_ok (items : list (string * val)) :
  forall (m m' : list ((PluginType * string) * EnvironmentPluginConfig PluginType)) h h',
    load_plugin_types items m h = Ok m' h' -> index_ok m -> index_ok m'.
Proof.
  induction items as [|[rt v] items IH]; intros m m' h h' Hload Hm.
  - by injection Hload as <- _.
  - cbn [load_plugin_types] in Hload.
    destruct (PluginType_of_value rt) as [t|]; [|done].
    apply bind_ok_inv in Hload as (specs & h1 & _ & Hload).
    apply bind_ok_inv in Hload as (m1 & h2 & Hload1 & Hload2).
    eapply IH; [exact Hload2 |]. by eapply load_raw_plugins_index_ok.
Qed.

Lemma index_ok_nil : index_ok (PluginType := PluginType) [].
Proof. split; [apply NoDup_nil_2 |]. intros k p Hin. by apply elem_of_nil in Hin. Qed.

Lemma EnvironmentConfig_init_index_ok (v : val) (cfg : EnvironmentConfig PluginType) h h' :
  EnvironmentConfig_init v h = Ok cfg h' -> index_ok (plugins cfg).
Proof.
  unfold EnvironmentConfig_init, load_plugins.
  intros (c & h1 & _ & Hinit)%bind_ok_inv.
  apply bind_ok_inv in Hinit as (m & h2 & Hload & Hret).
  apply bind_ok_inv in Hload as (items & h3 & _ & Hload).
  injection Hret as <- _. simpl.
  eapply load_plugin_types_index_ok; [exact Hload | apply index_ok_nil].
Qed.

Lemma Environment_init_index_ok (n : string) (v : val) (e : Environment PluginType) h h' :
  Environment_init n v h = Ok e h' -> index_ok (plugins (env_config e)).
Proof.
  unfold Environment_init.
  intros (c & h1 & _ & Hinit)%bind_ok_inv.
  apply bind_ok_inv in Hinit as (kw & h2 & _ & Hinit).
  apply bind_ok_inv in Hinit as (cfg & h3 & Hcall & Hret).
  injection Hret as <- _. simpl. unfold EnvironmentConfig_call in Hcall.
  destruct (filter _ _); [|done]. by eapply EnvironmentConfig_init_index_ok.
Qed.

(** A mapping with a type key that does not resolve is never loaded. *)
Lemma load_plugin_types_resolves (items : list (string * val)) :
  forall (m m' : list ((PluginType * string) * EnvironmentPluginConfig PluginType)) h h',
    load_plugin_types items m h = Ok m' h' ->
    Forall (fun kv => is_Some (PluginType_of_value kv.1)) items.
Proof.
  induction items as [|[rt v] items IH]; intros m m' h h' Hload; [constructor |].
  cbn [load_plugin_types] in Hload.
  destruct (PluginType_of_value rt) as [t|] eqn:Ht; [|done].
  apply bind_ok_inv in Hload as (specs & h1 & _ & Hload).
  apply bind_ok_inv in Hload as (m1 & h2 & _ & Hload2).
  constructor; [simpl; by rewrite Ht | by eapply IH].
Qed.

Lemma load_plugin_types_app (pre rest : list (string * val))
    (m : list ((PluginType * string) * EnvironmentPluginConfig PluginType)) h :
  load_plugin_types (pre ++ rest) m h =
  bind (load_plugin_types pre m) (fun m' => load_plugin_types rest m') h.
Proof.
  revert m h. induction pre as [|[rt v] pre IH]; intros m h; [done |].
  rewrite <- app_comm_cons. cbn [load_plugin_types].
  destruct (PluginType_of_value rt) as [t|]; [|done].
  rewrite bind_assoc. apply bind_ext. intros specs h1.
  rewrite bind_assoc. apply bind_ext. intros m1 h2. apply IH.
Qed.

Lemma bind_assoc_load (pre rest : list (string * val))
    (m : list ((PluginType * string) * EnvironmentPluginConfig PluginType)) h :
  bind (load_plugin_types (pre ++ rest) m) (fun m' => ret {| plugins := m' |}) h =
  bind (load_plugin_types pre m)
       (fun m1 => bind (load_plugin_types rest m1) (fun m' => ret {| plugins := m' |})) h.
Proof.
  rewrite <- bind_assoc. unfold bind at 1 3. by rewrite load_plugin_types_app.
Qed.
End Loading.

Section Claims.
Context {PluginType : Type} `{PluginTypeEnum PluginType}.
Implicit Types (h : heap) (p : EnvironmentPluginConfig PluginType)
  (e : Environment PluginType).

Lemma load_plugins_empty h (l : loc) :
  h !! l = Some (ODict []) -> load_plugins (VRef l) h = Ok [] h.
Proof.
  intros Hl. unfold load_plugins.
  by rewrite (bind_ok _ _ _ _ _ (items_of_dict _ _ _ Hl)).
Qed.

Lemma EnvironmentConfig_init_None h :
  EnvironmentConfig_init VNone h = Ok {| plugins := [] |} (h ++ [ODict []]).
Proof.
  unfold EnvironmentConfig_init.
  rewrite (bind_ok _ _ _ _ _ (or_empty_dict_None h)).
  by rewrite (bind_ok _ _ _ _ _ (load_plugins_empty _ _ (lookup_alloc h _))).
Qed.

(** C9. An [Environment] built from a name alone (the [config] argument
    absent, hence [None]) is built without error, and the plugins index of
    the [EnvironmentConfig] it owns is empty. *)
Theorem environment_without_config_is_empty (n : string) h :
  exists e h',
    Environment_init n VNone h = Ok e h' ∧
    env_name e = n ∧
    plugins (env_config e) = [] ∧
    length (plugins (env_config e)) = 0.
Proof.
  unfold Environment_init.
  rewrite (bind_ok _ _ _ _ _ (or_empty_dict_None h)).
  rewrite (bind_ok _ _ _ _ _ (kwargs_of_dict _ _ _ (lookup_alloc h _))).
  unfold EnvironmentConfig_call. simpl.
  rewrite (bind_ok _ _ _ _ _ (EnvironmentConfig_init_None _)).
  unfold ret. simpl. eauto 10.
Qed.

(** C10. A raw configuration mapping with a top-level key other than
    ["plugins"] makes the construction of the [Environment] raise a
    [TypeError]: the key is not ignored. *)
Theorem environment_rejects_unknown_keys
    (n : string) (l : loc) (items : list (string * val)) (k : string) h :
  h !! l = Some (ODict items) ->
  k ∈ dict_keys items ->
  k ≠ "plugins" ->
  exists msg, Environment_init n (VRef l) h = Raise (TypeError msg).
Proof.
  intros Hl Hk Hne.
  assert (items ≠ []) as Hitems by (intros ->; by apply elem_of_nil in Hk).
  unfold Environment_init.
  rewrite (bind_ok _ _ _ _ _ (or_empty_dict_nonempty _ _ _ Hl Hitems)).
  rewrite (bind_ok _ _ _ _ _ (kwargs_of_dict _ _ _ Hl)).
  unfold EnvironmentConfig_call.
  destruct (filter (fun k => k ≠ "plugins") (dict_keys items))
    as [|k' ks] eqn:Hf.
  - assert (k ∈ filter (fun k => k ≠ "plugins") (dict_keys items)) as Hin
      by (apply list_elem_of_filter; done).
    rewrite Hf in Hin. by apply elem_of_nil in Hin.
  - eexists. by apply bind_raise.
Qed.

(** C6. The [config] of an [EnvironmentPluginConfig] built from a raw
    mapping [m] is a deep copy of [m] taken at construction time: it reads
    as [m] read then; it still does in every later store, whatever has been
    done to [m] and to the objects nested in it (and to any other object
    that existed before the construction); and [m] reads the same whatever
    is done to the objects that the construction allocated, the copy among
    them. *)
Theorem config_is_a_deep_copy
    (t : PluginType) (nm : string) (m : loc) (items : list (string * val))
    (ex : val) h :
  store_wf h ->
  h !! m = Some (ODict items) ->
  exists p h',
    EnvironmentPluginConfig_init t (VStr nm) (VRef m) ex h = Ok p h' ∧
    h `prefix_of` h' ∧
    (forall d, view d h' (config p) = view d h (VRef m)) ∧
    (forall h'',
        (forall a, length h <= a < length h' -> h'' !! a = h' !! a) ->
        forall d, view d h'' (config p) = view d h (VRef m)) ∧
    (forall h'',
        (forall a, a < length h -> h'' !! a = h' !! a) ->
        forall d, view d h'' (VRef m) = view d h (VRef m)).
Proof.
  intros Hwf Hm. pose proof (lookup_lt_Some _ _ _ Hm) as Hlt.
  destruct (or_empty_dict_contract h (VRef m) Hwf Hlt)
    as (c & h1 & Hor & Hpre1 & Hwf1 & Hc & Hview1).
  destruct (deepcopy_contract h1 c Hwf1 Hc)
    as (r & h' & Hdc & Hpre' & Hwf' & Hr & Hcopy & Hiso).
  unfold EnvironmentPluginConfig_init.
  rewrite (bind_ok _ _ _ _ _ Hor), (bind_ok _ _ _ _ _ Hdc).
  eexists _, h'. split; [reflexivity |]. simpl.
  pose proof (prefix_length _ _ Hpre1) as Hlen1.
  assert (forall d, view d h' r = view d h (VRef m)) as Hsame.
  { intros d. rewrite Hcopy. by eapply Hview1. }
  split_and!.
  - by etrans.
  - done.
  - intros h'' Hag d. rewrite <- Hsame. apply Hiso. intros a Ha. apply Hag. lia.
  - intros h'' Hag d. apply view_old; [done | | done].
    intros a Ha. rewrite Hag by done. symmetry. apply prefix_lookup_lt; [done |].
    by etrans.
Qed.

Lemma extra_config_run p (le : loc) (items : list (string * val)) h :
  extras p = VRef le ->
  h !! le = Some (ODict items) ->
  NoDup (dict_keys items) ->
  extra_config p h = Ok (VRef (length h)) (h ++ [ODict (underscore <$> items)]).
Proof.
  intros Hex Hle Hnd. unfold extra_config. rewrite Hex.
  rewrite (bind_ok _ _ _ _ _ (items_of_dict _ _ _ Hle)).
  rewrite dict_update_nil by (by apply underscore_NoDup). done.
Qed.

(** C7. [p.extra_config] is a new dict whose keys are exactly the keys of
    [p.extras] with one underscore in front, each with the value that
    [p.extras] has for it; [p.extras] is left as it was, and a second call
    returns a dict with the same items. *)
Theorem extra_config_prefixes_keys p (le : loc) (items : list (string * val)) h :
  extras p = VRef le ->
  h !! le = Some (ODict items) ->
  NoDup (dict_keys items) ->
  exists res h1 h2,
    extra_config p h = Ok (VRef (length h)) h1 ∧
    h1 !! length h = Some (ODict res) ∧
    dict_keys res = String.append "_" <$> dict_keys items ∧
    (forall k, dict_get ("_" +:+ k) res = dict_get k items) ∧
    h `prefix_of` h1 ∧
    h1 !! le = Some (ODict items) ∧
    extra_config p h1 = Ok (VRef (length h1)) h2 ∧
    h2 !! length h1 = Some (ODict res) ∧
    h2 !! le = Some (ODict items).
Proof.
  intros Hex Hle Hnd.
  set (res := underscore <$> items).
  assert ((h ++ [ODict res]) !! le = Some (ODict items)) as Hle1.
  { rewrite lookup_app_l; [done | by eapply lookup_lt_Some]. }
  exists res, (h ++ [ODict res]), ((h ++ [ODict res]) ++ [ODict res]).
  split_and!.
  - exact (extra_config_run p le items h Hex Hle Hnd).
  - apply lookup_alloc.
  - apply dict_keys_underscore.
  - intros k. apply dict_get_underscore.
  - by apply prefix_app_r.
  - done.
  - exact (extra_config_run p le items _ Hex Hle1 Hnd).
  - apply lookup_alloc.
  - rewrite lookup_app_l; [done | by eapply lookup_lt_Some].
Qed.

Lemma config_with_extras_run p (lc le : loc) (c e : list (string * val)) h :
  config p = VRef lc -> extras p = VRef le ->
  h !! lc = Some (ODict c) -> h !! le = Some (ODict e) ->
  NoDup (dict_keys e) ->
  config_with_extras p h =
    Ok (VRef (length h))
       (h ++ [ODict (dict_update (dict_update [] c) (underscore <$> e));
              ODict (underscore <$> e)]).
Proof.
  intros Hc He Hlc Hle Hnd.
  pose proof (lookup_lt_Some _ _ _ Hlc) as Hlc'.
  pose proof (lookup_lt_Some _ _ _ Hle) as Hle'.
  unfold config_with_extras.
  rewrite (bind_ok _ _ _ _ _ (eq_refl : alloc (ODict []) h = Ok _ _)).
  rewrite Hc.
  rewrite (bind_ok _ _ _ _ _ (kwargs_of_dict _ _ c (eq_trans (lookup_alloc_old _ _ _ Hlc') Hlc))).
  rewrite (bind_ok _ _ _ _ _ (update_at_ok _ _ _ c (lookup_alloc _ _))).
  change (<[length h := ?o]> (h ++ [?o'])) with (<[length h := o]> (h ++ o' :: [])).
  rewrite insert_alloc.
  set (h1 := h ++ [ODict (dict_update [] c)]).
  assert (h1 !! le = Some (ODict e)) as Hle1
    by (unfold h1; by rewrite lookup_alloc_old).
  rewrite (bind_ok _ _ _ _ _ (extra_config_run p le e h1 He Hle1 Hnd)).
  rewrite (bind_ok _ _ _ _ _ (kwargs_of_dict _ _ _ (lookup_alloc h1 _))).
  assert ((h1 ++ [ODict (underscore <$> e)]) !! length h = Some (ODict (dict_update [] c)))
    as Hr.
  { unfold h1. rewrite <- app_assoc. by apply list_lookup_middle. }
  rewrite (bind_ok _ _ _ _ _ (update_at_ok _ _ _ (underscore <$> e) Hr)).
  unfold h1. rewrite <- app_assoc. simpl. by rewrite insert_alloc.
Qed.

(** C1. [p.config_with_extras] is the dict [{**p.config, **p.extra_config}]:
    its keys are those of [p.config] and those of [p.extra_config]; a key
    has the value of [p.extra_config] when it is there, and that of
    [p.config] otherwise; neither [p.config] nor [p.extras] is changed; and
    each call returns a dict that did not exist before the call. *)
Theorem config_with_extras_is_union
    p (lc le : loc) (c e : list (string * val)) h :
  config p = VRef lc -> extras p = VRef le ->
  h !! lc = Some (ODict c) -> h !! le = Some (ODict e) ->
  NoDup (dict_keys c) -> NoDup (dict_keys e) ->
  exists res ec h1 h2,
    config_with_extras p h = Ok (VRef (length h)) h1 ∧
    h1 !! length h = Some (ODict res) ∧
    (exists h', extra_config p h = Ok (VRef (length h)) h' ∧
                h' !! length h = Some (ODict ec)) ∧
    res = dict_update (dict_update [] c) ec ∧
    (forall k, k ∈ dict_keys res <-> k ∈ dict_keys c ∨ k ∈ dict_keys ec) ∧
    (forall k, dict_get k res =
               match dict_get k ec with
               | Some v => Some v
               | None => dict_get k c
               end) ∧
    h !! length h = None ∧
    h `prefix_of` h1 ∧
    h1 !! lc = Some (ODict c) ∧
    h1 !! le = Some (ODict e) ∧
    config_with_extras p h1 = Ok (VRef (length h1)) h2 ∧
    h2 !! length h1 = Some (ODict res) ∧
    length h1 ≠ length h.
Proof.
  intros Hc He Hlc Hle Hndc Hnde.
  set (ec := underscore <$> e).
  set (res := dict_update (dict_update [] c) ec).
  set (h1 := h ++ [ODict res; ODict ec]).
  assert (h `prefix_of` h1) as Hpre by (by apply prefix_app_r).
  assert (h1 !! lc = Some (ODict c)) as Hlc1 by (by eapply prefix_lookup_Some).
  assert (h1 !! le = Some (ODict e)) as Hle1 by (by eapply prefix_lookup_Some).
  assert (NoDup (dict_keys ec)) as Hndec by (by apply underscore_NoDup).
  exists res, ec, h1, (h1 ++ [ODict res; ODict ec]). split_and!.
  - exact (config_with_extras_run p lc le c e h Hc He Hlc Hle Hnde).
  - unfold h1. by apply list_lookup_middle.
  - exists (h ++ [ODict ec]). split; [|apply lookup_alloc].
    exact (extra_config_run p le e h He Hle Hnde).
  - done.
  - intros k. unfold res. rewrite dict_keys_update, dict_keys_update.
    unfold dict_keys at 1. simpl. rewrite elem_of_nil. tauto.
  - intros k. unfold res. rewrite dict_get_update by done.
    destruct (dict_get k ec); [done |]. rewrite dict_update_nil; done.
  - by apply lookup_ge_None.
  - done.
  - done.
  - done.
  - exact (config_with_extras_run p lc le c e h1 Hc He Hlc1 Hle1 Hnde).
  - by apply list_lookup_middle.
  - unfold h1. rewrite length_app. simpl. lia.
Qed.

(** C5. In every [EnvironmentConfig] that was built, the key of each entry
    of the plugins index is the (plugin type, name) pair of the override
    stored under it.  Nothing writes to the index afterwards: the one
    operation on it, [get_plugin_config], leaves the store as it is and
    returns an override filed under the pair it was asked for. *)
Theorem index_keys_match_their_values
    (v : val) (cfg : EnvironmentConfig PluginType) h h' :
  EnvironmentConfig_init v h = Ok cfg h' ->
  (forall k p, (k, p) ∈ plugins cfg -> k = (plugin_type p, name p)) ∧
  (forall (n : string) (t : PluginType) (nm : string) h1,
      exists r,
        get_plugin_config {| env_name := n; env_config := cfg |} t nm h1 = Ok r h1 ∧
        forall p, r = Some p -> (t, nm) = (plugin_type p, name p)).
Proof.
  intros Hinit. destruct (EnvironmentConfig_init_index_ok _ _ _ _ Hinit) as [_ Hkeys].
  split; [done |]. intros n t nm h1. eexists. split; [reflexivity |].
  simpl. intros p Hp. apply Hkeys. by apply dict_get_Some_elem.
Qed.

Lemma built_from_keys h h' (specs : list (string * val))
    (ps : list (EnvironmentPluginConfig PluginType)) :
  Forall2 (built_from h h') specs ps ->
  spec_key h <$> specs = Some <$> dict_keys (entry <$> ps).
Proof.
  intros Hall. unfold dict_keys. rewrite <- !list_fmap_compose.
  eapply Forall2_fmap_eq; [exact Hall |].
  intros s p (kw & _ & Hkey & _). by rewrite Hkey.
Qed.

(** C8. When the raw specs of a raw plugins mapping resolve to pairwise
    distinct (plugin type, name) pairs, the plugins index of the
    [EnvironmentConfig] built from it has as many entries as there are raw
    specs. *)
Theorem distinct_specs_give_as_many_entries
    (l : loc) (items : list (string * val)) (cfg : EnvironmentConfig PluginType) h h' :
  store_wf h ->
  h !! l = Some (ODict items) ->
  EnvironmentConfig_init (VRef l) h = Ok cfg h' ->
  NoDup (spec_key h <$> raw_specs h items) ->
  length (plugins cfg) = length (raw_specs h items).
Proof.
  intros Hwf Hl Hinit Hnd.
  destruct (EnvironmentConfig_init_spec _ _ _ _ _ Hwf Hl Hinit) as [_ (ps & -> & Hall)].
  rewrite (built_from_keys _ _ _ _ Hall) in Hnd. apply NoDup_fmap_1 in Hnd.
  rewrite dict_update_nil by done.
  rewrite length_fmap. symmetry. by eapply Forall2_length.
Qed.

(** C2. Raw specs that resolve to the same (plugin type, name) pair are no
    error.  For a raw plugins mapping that [load_plugins] accepts (every type
    key resolves, every value can be iterated and every raw spec binds), the
    construction returns, however many raw specs resolve to one pair; the
    index holds exactly one entry for the pair, and it is the override built
    from the last raw spec, in iteration order, that resolves to it. *)
Theorem last_spec_wins
    (l : loc) (items : list (string * val)) h :
  store_wf h ->
  h !! l = Some (ODict items) ->
  loadable h items ->
  exists cfg h',
    EnvironmentConfig_init (VRef l) h = Ok cfg h' ∧
    NoDup (dict_keys (plugins cfg)) ∧
    forall pre s post k,
      raw_specs h items = pre ++ s :: post ->
      spec_key h s = Some k ->
      (forall s', s' ∈ post -> spec_key h s' ≠ Some k) ->
      exists p,
        dict_get k (plugins cfg) = Some p ∧
        built_from h h' s p ∧
        forall p', (k, p') ∈ plugins cfg -> p' = p.
Proof.
  intros Hwf Hl Hgood.
  destruct (EnvironmentConfig_init_ok h l items Hwf Hl Hgood)
    as (ps & cfg & h' & Hinit & Hidx & _ & Hall).
  exists cfg, h'. split; [done |].
  assert (NoDup (dict_keys (plugins cfg))) as Hnd.
  { rewrite Hidx. apply dict_update_NoDup, NoDup_nil_2. }
  split; [done |]. intros pre s post k Hspecs Hk Hlast.
  rewrite Hspecs in Hall.
  apply Forall2_app_inv_l in Hall as (ps1 & ps' & Hall1 & Hall' & ->).
  apply Forall2_cons_inv_l in Hall' as (p & ps2 & Hp & Hall2 & ->).
  assert (k = (plugin_type p, name p)) as Hkp.
  { destruct Hp as (kw & _ & Hkey & _). congruence. }
  assert (dict_get k (plugins cfg) = Some p) as Hget.
  { rewrite Hidx, fmap_app, fmap_cons. unfold entry at 2. rewrite <- Hkp.
    apply dict_update_last. intros Hin.
    pose proof (built_from_keys _ _ _ _ Hall2) as Hkeys.
    apply (list_elem_of_fmap_2 Some) in Hin. rewrite <- Hkeys in Hin.
    apply list_elem_of_fmap in Hin as (s' & Hs' & Hin). by apply (Hlast s' Hin). }
  exists p. split_and!; [done | done |].
  intros p' Hin. apply (dict_get_elem _ _ _ Hnd) in Hin. congruence.
Qed.

(** C4, as the code has it.  A raw plugins mapping with a type key that does
    not resolve to a plugin type is never loaded; the construction raises
    the [ValueError] of [PluginType] for that key when the entries listed
    before it are accepted. *)
Theorem unknown_plugin_type_fails
    (l : loc) (pre post : list (string * val)) (raw : string) (v : val) h :
  store_wf h ->
  h !! l = Some (ODict (pre ++ (raw, v) :: post)) ->
  PluginType_of_value raw = None ->
  (forall cfg h', EnvironmentConfig_init (VRef l) h ≠ Ok cfg h') ∧
  (loadable h pre -> EnvironmentConfig_init (VRef l) h = Raise (ValueError raw)).
Proof.
  intros Hwf Hl Hraw. rewrite (EnvironmentConfig_init_dict _ _ _ Hl).
  rewrite decide_False by (by destruct pre). split.
  - intros cfg h' (m & h1 & Hload & _)%bind_ok_inv.
    apply load_plugin_types_resolves in Hload.
    apply Forall_app in Hload as [_ Hload]. apply Forall_cons in Hload as [[t Ht] _].
    simpl in Ht. congruence.
  - intros Hgood. rewrite bind_assoc_load.
    destruct (store_wf_lookup _ _ _ Hwf Hl) as [_ Hvals]. simpl in Hvals.
    rewrite fmap_app in Hvals. apply Forall_app in Hvals as [Hvals _].
    destruct (load_plugin_types_ok h Hwf pre [] h (reflexivity h) Hwf Hvals Hgood)
      as (ps & h' & Hload & _).
    rewrite (bind_ok _ _ _ _ _ Hload). cbn [load_plugin_types]. by rewrite Hraw.
Qed.
End Claims.

(** C3. [get_plugin_config] is a lookup in the index of the environment:
    it leaves the store as it is and never raises; it returns the override
    stored under the pair when there is one, and [None] when there is none.
    On the example of the specification it returns an override whose
    [config] is [{"a": 1}]. *)
Theorem get_plugin_config_is_a_lookup
    {PluginType : Type} `{PluginTypeEnum PluginType}
    (n : string) (v : val) (e : Environment PluginType) (h0 h1 : heap) :
  Environment_init n v h0 = Ok e h1 ->
  (forall (t : PluginType) (nm : string) (h : heap),
      exists r,
        get_plugin_config e t nm h = Ok r h ∧
        (forall p, ((t, nm), p) ∈ plugins (env_config e) -> r = Some p) ∧
        ((t, nm) ∉ dict_keys (plugins (env_config e)) -> r = None)) ∧
  (exists e' h' p a,
      Environment_init "dev" (VRef 4) example_store = Ok e' h' ∧
      get_plugin_config e' EXTRACTOR "tap-csv" h' = Ok (Some p) h' ∧
      config p = VRef a ∧
      h' !! a = Some (ODict [("a", VInt 1)]) ∧
      get_plugin_config e' LOADER "tap-csv" h' = Ok None h').
Proof.
  intros Hinit. destruct (Environment_init_index_ok _ _ _ _ _ Hinit) as [Hnd _].
  split.
  - intros t nm h. eexists. split; [reflexivity |]. split.
    + intros p Hin. by apply dict_get_elem.
    + intros Hnin. by apply dict_get_None.
  - eexists _, _, _, _. split; [vm_compute; reflexivity |].
    split; [vm_compute; reflexivity |]. split; [reflexivity |].
    split; reflexivity.
Qed.

(** ** Instances on concrete stores *)

Lemma example_store_wf : store_wf example_store.
Proof. compute_done. Qed.

Lemma duplicate_store_wf : store_wf duplicate_store.
Proof. compute_done. Qed.


Lemma override_store_wf : store_wf override_store.
Proof. compute_done. Qed.

Lemma three_specs_store_wf : store_wf three_specs_store.
Proof. compute_done. Qed.

Lemma list_config_store_wf : store_wf list_config_store.
Proof. compute_done. Qed.

(** The environment that the example of the specification builds, and the
    store it leaves. *)
Lemma example_config_run :
  EnvironmentConfig_init (VRef 3) example_store
  = Ok {| plugins :=
            [((EXTRACTOR, "tap-csv"),
              {| plugin_type := EXTRACTOR; name := "tap-csv";
                 config := VRef 6; extras := VRef 5 |})] |}
       (example_store ++ [ODict []; ODict [("a", VInt 1)]]).
Proof. vm_compute. reflexivity. Qed.

Lemma example_environment_run :
  Environment_init "dev" (VRef 4) example_store
  = Ok {| env_name := "dev";
          env_config :=
            {| plugins :=
                 [((EXTRACTOR, "tap-csv"),
                   {| plugin_type := EXTRACTOR; name := "tap-csv";
                      config := VRef 6; extras := VRef 5 |})] |} |}
       (example_store ++ [ODict []; ODict [("a", VInt 1)]]).
Proof. vm_compute. reflexivity. Qed.

(** The index built from three raw specs under two plugin types, and the
    store it leaves. *)
Lemma three_specs_config_run :
  EnvironmentConfig_init (VRef 5) three_specs_store
  = Ok {| plugins :=
            [((EXTRACTOR, "tap-csv"),
              {| plugin_type := EXTRACTOR; name := "tap-csv";
                 config := VRef 8; extras := VRef 6 |});
             ((EXTRACTOR, "tap-gitlab"),
              {| plugin_type := EXTRACTOR; name := "tap-gitlab";
                 config := VRef 11; extras := VRef 9 |});
             ((LOADER, "target-csv"),
              {| plugin_type := LOADER; name := "target-csv";
                 config := VRef 14; extras := VRef 12 |})] |}
       (three_specs_store ++
          [ODict []; ODict []; ODict []; ODict []; ODict []; ODict []; ODict [];
           ODict []; ODict []]).
Proof. vm_compute. reflexivity. Qed.

Ltac loadable_here :=
  split; repeat constructor; simpl;
  try (by eexists); try (eexists; reflexivity).

Lemma config_with_extras_is_union_witness :
  exists res h1,
    config_with_extras override_example override_store = Ok (VRef 3) h1 ∧
    h1 !! 3 = Some (ODict res) ∧
    dict_get "a" res = Some (VInt 1) ∧
    dict_get "_select" res = Some (VRef 2) ∧
    dict_get "_schema" res = Some (VStr "public").
Proof.
  destruct (config_with_extras_is_union override_example 0 1
              [("a", VInt 1); ("_select", VInt 0)]
              [("select", VRef 2); ("schema", VStr "public")]
              override_store eq_refl eq_refl eq_refl eq_refl
              ltac:(compute_done) ltac:(compute_done))
    as (res & ec & h1 & h2 & Hrun & Hres & (h' & Hec & Hec') & -> & _).
  vm_compute in Hec. injection Hec as <-. vm_compute in Hec'. injection Hec' as <-.
  eexists _, h1. split; [exact Hrun |]. split; [exact Hres |].
  split; [|split]; reflexivity.
Defined.

(** Two runs with two raw specs for one pair.  In the first the later spec
    alone has a [config]; in the second both have one, a list each, and the
    entry kept reads as the later one and is not the override that the
    earlier spec describes. *)
Lemma last_spec_wins_witness :
  (exists cfg h' p,
     EnvironmentConfig_init (VRef 6) duplicate_store = Ok cfg h' ∧
     dict_get (EXTRACTOR, "tap-csv") (plugins cfg) = Some p ∧
     (forall p', ((EXTRACTOR, "tap-csv"), p') ∈ plugins cfg -> p' = p) ∧
     view 2 h' (config p) = TDict [("path", TStr "/data")]) ∧
  (exists cfg h' p,
     EnvironmentConfig_init (VRef 5) list_config_store = Ok cfg h' ∧
     dict_get (EXTRACTOR, "a") (plugins cfg) = Some p ∧
     (forall p', ((EXTRACTOR, "a"), p') ∈ plugins cfg -> p' = p) ∧
     view 2 h' (config p) = TList [TInt 2] ∧
     ¬ built_from list_config_store h' ("extractors", VRef 2) p).
Proof.
  split.
  - destruct (last_spec_wins 6 [("extractors", VRef 3)] duplicate_store
                duplicate_store_wf eq_refl ltac:(loadable_here))
      as (cfg & h' & Hinit & _ & Hlast).
    destruct (Hlast [("extractors", VRef 0)] ("extractors", VRef 1) []
                (EXTRACTOR, "tap-csv") eq_refl eq_refl)
      as (p & Hget & (kw & Hkw & _ & _ & Hview) & Huniq).
    { intros s' Hin. by apply elem_of_nil in Hin. }
    injection Hkw as <-.
    exists cfg, h', p. split_and!; [done | done | done |].
    exact (Hview true eq_refl 2).
  - destruct (last_spec_wins 5 [("extractors", VRef 4)] list_config_store
                list_config_store_wf eq_refl ltac:(loadable_here))
      as (cfg & h' & Hinit & _ & Hlast).
    destruct (Hlast [("extractors", VRef 2)] ("extractors", VRef 3) []
                (EXTRACTOR, "a") eq_refl eq_refl)
      as (p & Hget & (kw & Hkw & _ & _ & Hview) & Huniq).
    { intros s' Hin. by apply elem_of_nil in Hin. }
    injection Hkw as <-.
    pose proof (Hview true eq_refl 2) as Hlater.
    exists cfg, h', p. split_and!; [done | done | done | exact Hlater |].
    intros (kw & Hkw & _ & _ & Hview').
    injection Hkw as <-.
    pose proof (Hview' true eq_refl 2) as Hearlier.
    rewrite Hlater in Hearlier. vm_compute in Hearlier. discriminate.
Defined.

Lemma get_plugin_config_is_a_lookup_witness :
  exists e h1 r,
    Environment_init "dev" (VRef 4) example_store = Ok e h1 ∧
    get_plugin_config e LOADER "tap-csv" h1 = Ok r h1 ∧
    r = None.
Proof.
  destruct (proj1 (get_plugin_config_is_a_lookup "dev" (VRef 4) _ example_store _
                     example_environment_run) LOADER "tap-csv"
              (example_store ++ [ODict []; ODict [("a", VInt 1)]]))
    as (r & Hr & _ & Hnone).
  eexists _, _, r. split; [exact example_environment_run |]. split; [exact Hr |].
  apply Hnone. compute_done.
Defined.

Lemma unknown_plugin_type_fails_witness :
  EnvironmentConfig_init (PluginType := KnownPluginType) (VRef 5) duplicate_store
  = Raise (ValueError "bogus").
Proof.
  refine (proj2 (unknown_plugin_type_fails (PluginType := KnownPluginType)
                   5 [("extractors", VRef 3)] []
                   "bogus" (VRef 4) duplicate_store duplicate_store_wf _ _) _).
  - reflexivity.
  - reflexivity.
  - loadable_here.
Defined.

(** C4 does not hold as stated: the mapping has a type key that is no plugin
    type, and the construction raises the [TypeError] of the raw spec listed
    before it, not the [ValueError] of the key. *)
Lemma unknown_plugin_type_counterexample :
  nameless_store !! 3 = Some (ODict [("extractors", VRef 1); ("bogus", VRef 2)]) ∧
  PluginType_of_value (PluginType := KnownPluginType) "bogus" = None ∧
  EnvironmentConfig_init (PluginType := KnownPluginType) (VRef 3) nameless_store
  = Raise (TypeError "missing 1 required positional argument: 'name'") ∧
  forall raw,
    EnvironmentConfig_init (PluginType := KnownPluginType) (VRef 3) nameless_store
    ≠ Raise (ValueError raw).
Proof.
  split; [reflexivity |]. split; [reflexivity |].
  assert (EnvironmentConfig_init (PluginType := KnownPluginType) (VRef 3) nameless_store
          = Raise (TypeError "missing 1 required positional argument: 'name'")) as Hrun
    by (vm_compute; reflexivity).
  split; [exact Hrun |]. intros raw. rewrite Hrun. discriminate.
Qed.

Lemma index_keys_match_their_values_witness :
  exists cfg h',
    EnvironmentConfig_init (PluginType := KnownPluginType) (VRef 3) example_store
    = Ok cfg h' ∧
    Forall (fun kp => kp.1 = (plugin_type kp.2, name kp.2)) (plugins cfg).
Proof.
  eexists _, _. split; [exact example_config_run |].
  apply Forall_forall. intros [k p] Hin.
  exact (proj1 (index_keys_match_their_values (VRef 3) _ example_store _
                  example_config_run) k p Hin).
Defined.

Lemma config_is_a_deep_copy_witness :
  exists p h',
    EnvironmentPluginConfig_init EXTRACTOR (VStr "tap-csv") (VRef 1) VNone override_store
    = Ok p h' ∧
    view 3 h' (config p) = view 3 override_store (VRef 1) ∧
    view 3 (<[2 := OList []]> (<[1 := ODict []]> h')) (config p)
    = view 3 override_store (VRef 1).
Proof.
  destruct (config_is_a_deep_copy EXTRACTOR "tap-csv" 1
              [("select", VRef 2); ("schema", VStr "public")] VNone
              override_store override_store_wf eq_refl)
    as (p & h' & Hinit & _ & Hsame & Hiso & _).
  exists p, h'. split; [exact Hinit |]. split; [apply Hsame |].
  apply Hiso. intros a Ha. simpl in Ha.
  rewrite !list_lookup_insert_ne by lia. reflexivity.
Defined.

Lemma extra_config_prefixes_keys_witness :
  exists res h1,
    extra_config override_example override_store = Ok (VRef 3) h1 ∧
    h1 !! 3 = Some (ODict res) ∧
    dict_keys res = ["_select"; "_schema"].
Proof.
  destruct (extra_config_prefixes_keys override_example 1
              [("select", VRef 2); ("schema", VStr "public")]
              override_store eq_refl eq_refl ltac:(compute_done))
    as (res & h1 & h2 & Hrun & Hres & Hkeys & _).
  exists res, h1. split; [exact Hrun |]. split; [exact Hres | exact Hkeys].
Defined.

(** Three raw specs under two plugin types, resolving to three pairs: the
    construction returns an index of three entries. *)
Lemma distinct_specs_give_as_many_entries_witness :
  exists cfg h',
    EnvironmentConfig_init (PluginType := KnownPluginType) (VRef 5) three_specs_store
    = Ok cfg h' ∧
    spec_key three_specs_store
      <$> raw_specs three_specs_store [("extractors", VRef 3); ("loaders", VRef 4)]
    = [Some (EXTRACTOR, "tap-csv"); Some (EXTRACTOR, "tap-gitlab");
       Some (LOADER, "target-csv")] ∧
    length (plugins cfg) = 3.
Proof.
  eexists _, _. split; [exact three_specs_config_run |]. split; [reflexivity |].
  rewrite (distinct_specs_give_as_many_entries 5
             [("extractors", VRef 3); ("loaders", VRef 4)] _ three_specs_store _
             three_specs_store_wf eq_refl three_specs_config_run).
  - reflexivity.
  - compute_done.
Defined.

Lemma environment_rejects_unknown_keys_witness :
  exists msg,
    Environment_init (PluginType := KnownPluginType) "dev" (VRef 1)
      [ODict []; ODict [("plugins", VRef 0); ("jobs", VNone)]]
    = Raise (TypeError msg).
Proof.
  apply (environment_rejects_unknown_keys (PluginType := KnownPluginType)
           "dev" 1 [("plugins", VRef 0); ("jobs", VNone)] "jobs").
  - reflexivity.
  - compute_done.
  - discriminate.
Defined.

(** * Further properties of the module *)

(** ** What [x or {}] does to the arguments *)

Lemma truthy_heap (v : val) (b : bool) (h h' : heap) : truthy v h = Ok b h' -> h' = h.
Proof.
  destruct v as [| | | |l]; simpl; try (by intros [= _ ->]).
  unfold bind, deref. destruct (h !! l) as [[items|elems]|]; [| |done];
    by intros [= _ ->].
Qed.

Lemma or_empty_dict_falsy (v : val) (h : heap) :
  truthy v h = Ok false h ->
  or_empty_dict v h = Ok (VRef (length h)) (h ++ [ODict []]).
Proof. intros Hv. unfold or_empty_dict. by rewrite (bind_ok _ _ _ _ _ Hv). Qed.

Lemma or_empty_dict_truthy (v : val) (h : heap) :
  truthy v h = Ok true h -> or_empty_dict v h = Ok v h.
Proof. intros Hv. unfold or_empty_dict. by rewrite (bind_ok _ _ _ _ _ Hv). Qed.

(** The deep copy of the empty dict that [or {}] has just made. *)
Lemma deepcopy_new_empty_dict (h : heap) :
  deepcopy (VRef (length h)) (h ++ [ODict []])
  = Ok (VRef (S (length h))) (h ++ [ODict []; ODict []]).
Proof.
  unfold deepcopy. cbn [deepcopy_memo fst snd].
  rewrite lookup_empty, lookup_alloc. cbn [fill_dict fst snd].
  rewrite length_app. cbn [length]. rewrite Nat.add_1_r.
  by rewrite <- app_assoc.
Qed.

Lemma truthy_not_dict (v : val) (h : heap) :
  truthy v h = Ok true h ->
  (forall l items, v = VRef l -> h !! l ≠ Some (ODict items)) ->
  items_of v h = Raise (AttributeError "items") ∧
  kwargs_of v h = Raise (TypeError "argument after ** must be a mapping").
Proof.
  intros Hv Hnd. destruct v as [| | | |l]; try done.
  unfold items_of, kwargs_of, truthy, bind, deref in *.
  destruct (h !! l) as [[items|elems]|] eqn:Hl; [|done|done].
  by destruct (Hnd l items).
Qed.

Lemma config_like_ok (n : nat) (key : string) (kwargs : list (string * val)) :
  Forall (val_ok n) kwargs.*2 -> val_ok n (default VNone (dict_get key kwargs)).
Proof.
  intros Hok. destruct (dict_get key kwargs) as [v|] eqn:Hget; [|done]. simpl.
  apply dict_get_Some_elem in Hget.
  apply (proj1 (Forall_forall _ _) Hok). apply list_elem_of_fmap.
  by exists (key, v).
Qed.

Section Further.
Context {PluginType : Type} `{PluginTypeEnum PluginType}.
Implicit Types (h : heap) (p : EnvironmentPluginConfig PluginType)
  (t : PluginType) (kwargs : list (string * val)).

(** X1. A [config] argument that is false for Python ([None], an empty
    dict or list, [0], the empty string, [False]) is replaced by a new empty
    dict: the override's [config] is an empty dict that did not exist
    before, whatever the argument was, and no existing object is touched. *)
Theorem falsy_config_becomes_empty_dict t (nm : string) (v ex : val) h :
  truthy v h = Ok false h ->
  exists p h',
    EnvironmentPluginConfig_init t (VStr nm) v ex h = Ok p h' ∧
    config p = VRef (S (length h)) ∧
    h !! S (length h) = None ∧
    h' !! S (length h) = Some (ODict []) ∧
    h `prefix_of` h'.
Proof.
  intros Hv. unfold EnvironmentPluginConfig_init.
  rewrite (bind_ok _ _ _ _ _ (or_empty_dict_falsy _ _ Hv)).
  rewrite (bind_ok _ _ _ _ _ (deepcopy_new_empty_dict h)).
  eexists _, _. split; [reflexivity |]. cbn [config]. split_and!.
  - done.
  - apply lookup_ge_None. lia.
  - change (h ++ [ODict []; ODict []]) with (h ++ [ODict []] ++ [ODict []]).
    rewrite app_assoc.
    replace (S (length h)) with (length (h ++ [ODict []]))
      by (rewrite length_app; simpl; lia).
    apply lookup_alloc.
  - by apply prefix_app_r.
Qed.

(** X2. What [EnvironmentConfig.__init__] does with a [plugins] argument
    that is not a non-empty dict: a false value ([None], [{}], [[]], [0],
    the empty string) gives an empty index, and a true value that is not a
    dict (a non-empty list or string, a number) raises [AttributeError],
    for [load_plugins] calls [.items()] on it. *)
Theorem plugins_argument_that_is_no_mapping (v : val) (b : bool) h :
  truthy v h = Ok b h ->
  (b = true -> forall l items, v = VRef l -> h !! l ≠ Some (ODict items)) ->
  EnvironmentConfig_init (PluginType := PluginType) v h =
  if b then Raise (AttributeError "items")
  else Ok {| plugins := [] |} (h ++ [ODict []]).
Proof.
  intros Hv Hnd. unfold EnvironmentConfig_init. destruct b.
  - rewrite (bind_ok _ _ _ _ _ (or_empty_dict_truthy _ _ Hv)).
    unfold load_plugins. unfold bind at 1 2.
    by rewrite (proj1 (truthy_not_dict v h Hv (Hnd eq_refl))).
  - rewrite (bind_ok _ _ _ _ _ (or_empty_dict_falsy _ _ Hv)).
    by rewrite (bind_ok _ _ _ _ _ (load_plugins_empty _ _ (lookup_alloc h _))).
Qed.

(** X3. What [Environment.__init__] does with a [config] argument that is
    not a non-empty dict: a false value behaves exactly as [None] does, and
    a true value that is not a dict raises [TypeError], for it is unpacked
    with [**]. *)
Theorem config_argument_that_is_no_mapping (n : string) (v : val) (b : bool) h :
  truthy v h = Ok b h ->
  (b = true -> forall l items, v = VRef l -> h !! l ≠ Some (ODict items)) ->
  Environment_init (PluginType := PluginType) n v h =
  if b then Raise (TypeError "argument after ** must be a mapping")
  else Environment_init n VNone h.
Proof.
  intros Hv Hnd. unfold Environment_init. destruct b.
  - rewrite (bind_ok _ _ _ _ _ (or_empty_dict_truthy _ _ Hv)).
    unfold bind at 1. by rewrite (proj2 (truthy_not_dict v h Hv (Hnd eq_refl))).
  - rewrite (bind_ok _ _ _ _ _ (or_empty_dict_falsy _ _ Hv)).
    by rewrite (bind_ok _ _ _ _ _ (or_empty_dict_None h)).
Qed.

(** ** The extras of an override *)

Lemma dict_get_extras_arg (k : string) kwargs :
  dict_get k (extras_arg kwargs) =
  if decide (k ≠ "name" ∧ k ≠ "config") then dict_get k kwargs else None.
Proof.
  unfold extras_arg. induction kwargs as [|[k' v'] kwargs IH]; [by case_decide |].
  rewrite filter_cons. cbn [fst].
  destruct (decide (k' ≠ "name" ∧ k' ≠ "config")) as [Hk'|Hk']; cbn [dict_get];
    rewrite IH; destruct (decide (k = k')) as [->|Hne]; try done;
    by destruct (decide (k' ≠ "name" ∧ k' ≠ "config")).
Qed.

Lemma dict_keys_extras_arg (k : string) kwargs :
  k ∈ dict_keys (extras_arg kwargs) <->
  k ∈ dict_keys kwargs ∧ k ≠ "name" ∧ k ≠ "config".
Proof.
  unfold dict_keys, extras_arg. rewrite !list_elem_of_fmap. split.
  - intros ([k' v] & -> & [Hk Hin]%list_elem_of_filter). split; [|done].
    by exists (k', v).
  - intros [([k' v] & -> & Hin) Hk]. exists (k', v). split; [done |].
    by apply list_elem_of_filter.
Qed.

(** X4. The [extras] of an override are a new dict that holds the items of
    the raw spec other than [name] and [config], with the very values of the
    raw spec: unlike [config] they are not copied, so a dict or list among
    them is the object of the raw input itself. *)
Theorem extras_share_the_values_of_the_spec t kwargs (n : string) h :
  store_wf h ->
  NoDup (dict_keys kwargs) -> Forall (val_ok (length h)) kwargs.*2 ->
  spec_name kwargs = Some n ->
  exists p h' (a : loc) (items : list (string * val)),
    EnvironmentPluginConfig_call t kwargs h = Ok p h' ∧
    extras p = VRef a ∧ h !! a = None ∧ h' !! a = Some (ODict items) ∧
    (forall k, dict_get k items =
               if decide (k ≠ "name" ∧ k ≠ "config") then dict_get k kwargs else None) ∧
    (forall k b, dict_get k items = Some (VRef b) ->
                 dict_get k kwargs = Some (VRef b) ∧ is_Some (h !! b) ∧ h' !! b = h !! b).
Proof.
  intros Hwf Hnd Hok Hname.
  destruct (EnvironmentPluginConfig_call_ok t kwargs h n Hwf Hnd Hok Hname)
    as (p & h' & Hcall & _ & _ & Hpre & _ & _ & Hex & Hexo & _).
  exists p, h', (length h), (extras_arg kwargs). split_and!; try done.
  - by apply lookup_ge_None.
  - intros k. apply dict_get_extras_arg.
  - intros k b Hk. rewrite dict_get_extras_arg in Hk. case_decide; [|done].
    assert (b < length h) as Hb.
    { apply dict_get_Some_elem in Hk.
      apply (proj1 (Forall_forall _ _) Hok (VRef b)).
      apply list_elem_of_fmap. by exists (k, VRef b). }
    split_and!; [done | by apply lookup_lt_is_Some_2 |].
    symmetry. by apply prefix_lookup_lt.
Qed.

(** ** Construction and the objects that exist *)

Lemma items_of_inv (v : val) (items : list (string * val)) h h' :
  items_of v h = Ok items h' ->
  exists l, v = VRef l ∧ h !! l = Some (ODict items) ∧ h' = h.
Proof.
  unfold items_of, bind, deref. destruct v as [| | | |l]; try done.
  destruct (h !! l) as [[its|elems]|] eqn:Hl; try done. intros [= -> <-]. by exists l.
Qed.

Lemma EnvironmentConfig_init_frame (v : val) (cfg : EnvironmentConfig PluginType) h h' :
  store_wf h -> val_ok (length h) v ->
  EnvironmentConfig_init v h = Ok cfg h' ->
  h `prefix_of` h' ∧ store_wf h'.
Proof.
  intros Hwf Hv Hinit. unfold EnvironmentConfig_init in Hinit.
  apply bind_ok_inv in Hinit as (c & h1 & Hor & Hinit).
  destruct (or_empty_dict_contract h v Hwf Hv) as (c' & h1' & Hor' & Hpre1 & Hwf1 & Hc & _).
  rewrite Hor in Hor'. injection Hor' as <- <-.
  apply bind_ok_inv in Hinit as (m & h2 & Hload & Hret). injection Hret as _ <-.
  unfold load_plugins in Hload.
  apply bind_ok_inv in Hload as (items & h1' & Hitems & Hload).
  apply items_of_inv in Hitems as (lp & -> & Hlp & ->).
  destruct (load_plugin_types_spec h1 Hwf1 items [] m h1 h2 (reflexivity h1) Hwf1
              (proj2 (store_wf_lookup _ _ _ Hwf1 Hlp)) Hload)
    as (ps & _ & Hpre2 & Hwf2 & _).
  split; [by etrans | done].
Qed.

Lemma Environment_init_frame (n : string) (v : val) (e : Environment PluginType) h h' :
  store_wf h -> val_ok (length h) v ->
  Environment_init n v h = Ok e h' ->
  h `prefix_of` h' ∧ store_wf h'.
Proof.
  intros Hwf Hv Hinit. unfold Environment_init in Hinit.
  apply bind_ok_inv in Hinit as (c & h1 & Hor & Hinit).
  destruct (or_empty_dict_contract h v Hwf Hv) as (c' & h1' & Hor' & Hpre1 & Hwf1 & Hc & _).
  rewrite Hor in Hor'. injection Hor' as <- <-.
  apply bind_ok_inv in Hinit as (kw & h1' & Hkw & Hinit).
  apply kwargs_of_spec in Hkw as [Hkw ->].
  destruct (spec_kwargs_wf _ _ _ Hwf1 Hkw) as [_ Hok].
  apply bind_ok_inv in Hinit as (cfg & h2 & Hcall & Hret). injection Hret as _ <-.
  unfold EnvironmentConfig_call in Hcall. destruct (filter _ _); [|done].
  destruct (EnvironmentConfig_init_frame _ _ _ _ Hwf1 (config_like_ok _ "plugins" kw Hok) Hcall)
    as [Hpre2 Hwf2].
  split; [by etrans | done].
Qed.

(** X5. Building an [Environment] changes no object that existed before:
    whatever the raw configuration holds, it reads after the construction
    as it read before, at any depth. *)
Theorem construction_leaves_its_input_alone
    (n : string) (v : val) (e : Environment PluginType) h h' :
  store_wf h -> val_ok (length h) v ->
  Environment_init n v h = Ok e h' ->
  h `prefix_of` h' ∧
  forall d x, val_ok (length h) x -> view d h' x = view d h x.
Proof.
  intros Hwf Hv Hinit.
  destruct (Environment_init_frame _ _ _ _ _ Hwf Hv Hinit) as [Hpre _].
  split; [done |]. intros d x Hx. by apply view_prefix.
Qed.

(** ** The index and the raw specs *)

Lemma index_keys_of_specs (l : loc) (items : list (string * val))
    (cfg : EnvironmentConfig PluginType) h h' :
  store_wf h -> h !! l = Some (ODict items) ->
  EnvironmentConfig_init (VRef l) h = Ok cfg h' ->
  NoDup (dict_keys (plugins cfg)) ∧
  forall k, k ∈ dict_keys (plugins cfg) <-> Some k ∈ spec_key h <$> raw_specs h items.
Proof.
  intros Hwf Hl Hinit.
  destruct (EnvironmentConfig_init_spec _ _ _ _ _ Hwf Hl Hinit) as [_ (ps & -> & Hall)].
  split; [apply dict_update_NoDup, NoDup_nil_2 |]. intros k.
  rewrite (built_from_keys _ _ _ _ Hall), dict_keys_update.
  rewrite (list_elem_of_fmap_inj Some). unfold dict_keys at 1. simpl.
  rewrite elem_of_nil. tauto.
Qed.

Lemma Environment_init_plugins (n : string) (l : loc) (v : val) h :
  h !! l = Some (ODict [("plugins", v)]) ->
  Environment_init (PluginType := PluginType) n (VRef l) h =
  bind (EnvironmentConfig_init v)
       (fun cfg => ret {| env_name := n; env_config := cfg |}) h.
Proof.
  intros Hl. unfold Environment_init.
  rewrite (bind_ok _ _ _ _ _ (or_empty_dict_nonempty _ _ _ Hl ltac:(done))).
  by rewrite (bind_ok _ _ _ _ _ (kwargs_of_dict _ _ _ Hl)).
Qed.

(** X6. Lookup after construction: for an environment built from
    [{"plugins": M}], [get_plugin_config] finds an override for a (plugin
    type, name) pair exactly when some raw spec of the raw plugins mapping
    [M] resolves to that pair. *)
Theorem lookup_finds_what_the_specs_resolve_to
    (n : string) (l lp : loc) (items : list (string * val))
    (e : Environment PluginType) h h' :
  store_wf h ->
  h !! l = Some (ODict [("plugins", VRef lp)]) ->
  h !! lp = Some (ODict items) ->
  Environment_init n (VRef l) h = Ok e h' ->
  forall t (nm : string) h1,
    exists r,
      get_plugin_config e t nm h1 = Ok r h1 ∧
      (is_Some r <-> Some (t, nm) ∈ spec_key h <$> raw_specs h items).
Proof.
  intros Hwf Hl Hlp Hinit t nm h1.
  rewrite (Environment_init_plugins _ _ _ _ Hl) in Hinit.
  apply bind_ok_inv in Hinit as (cfg & h2 & Hinit & Hret). injection Hret as <- <-.
  destruct (index_keys_of_specs _ _ _ _ _ Hwf Hlp Hinit) as [_ Hkeys].
  eexists. split; [reflexivity |]. cbn [env_config]. rewrite <- Hkeys.
  rewrite <- not_eq_None_Some, dict_get_None.
  split; [apply dec_stable | by intros ? ?].
Qed.

(** X7. The index has one entry for each distinct (plugin type, name) pair
    that the raw specs resolve to: its length is the number of distinct
    pairs, however often a pair is repeated. *)
Theorem index_counts_distinct_pairs
    (l : loc) (items : list (string * val)) (cfg : EnvironmentConfig PluginType) h h' :
  store_wf h -> h !! l = Some (ODict items) ->
  EnvironmentConfig_init (VRef l) h = Ok cfg h' ->
  length (plugins cfg) = length (remove_dups (omap (spec_key h) (raw_specs h items))).
Proof.
  intros Hwf Hl Hinit.
  destruct (index_keys_of_specs _ _ _ _ _ Hwf Hl Hinit) as [Hnd Hkeys].
  rewrite <- (length_fmap fst (plugins cfg)).
  apply Permutation_length, NoDup_Permutation; [done | apply NoDup_remove_dups |].
  intros k. rewrite elem_of_remove_dups, list_elem_of_omap.
  change (plugins cfg).*1 with (dict_keys (plugins cfg)). rewrite Hkeys.
  rewrite list_elem_of_fmap. split.
  - intros (s & Hs & Hin). by exists s.
  - intros (s & Hin & Hs). by exists s.
Qed.

(** ** The first entry that [load_plugins] does not accept *)









(** ** Overrides that were built *)

Lemma view_dict_inv (h : heap) (v : val) (ts : list (string * tree)) :
  view 1 h v = TDict ts ->
  exists c items, v = VRef c ∧ h !! c = Some (ODict items) ∧ ts.*1 = dict_keys items.
Proof.
  destruct v as [| | | |c]; try done. cbn [view].
  destruct (h !! c) as [[items|elems]|] eqn:Hc; try done. intros [= <-].
  exists c, items. split_and!; [done | done |].
  unfold dict_keys. rewrite <- list_fmap_compose. by apply list_fmap_ext.
Qed.

(** X12. The constructor and [config_with_extras] together: for an override
    built from a raw spec with a [config] mapping, [config_with_extras] is a
    dict whose keys are the keys of that mapping and, with an underscore in
    front, the keys of the raw spec other than [name] and [config]; under
    an underscored key it has the very value of the raw spec. *)
Theorem built_override_exposes_its_extras
    t kwargs (n : string) (l : loc) (items : list (string * val)) h :
  store_wf h ->
  NoDup (dict_keys kwargs) -> Forall (val_ok (length h)) kwargs.*2 ->
  spec_name kwargs = Some n ->
  config_arg kwargs = VRef l -> h !! l = Some (ODict items) ->
  exists p h1 h2 res,
    EnvironmentPluginConfig_call t kwargs h = Ok p h1 ∧
    config_with_extras p h1 = Ok (VRef (length h1)) h2 ∧
    h2 !! length h1 = Some (ODict res) ∧
    (forall k, k ∈ dict_keys res <->
               k ∈ dict_keys items ∨
               exists k', k = "_" +:+ k' ∧ k' ∈ dict_keys kwargs ∧
                          k' ≠ "name" ∧ k' ≠ "config") ∧
    (forall k v, k ≠ "name" -> k ≠ "config" -> dict_get k kwargs = Some v ->
                 dict_get ("_" +:+ k) res = Some v).
Proof.
  intros Hwf Hnd Hok Hname Hcfg Hl.
  destruct (EnvironmentPluginConfig_call_ok t kwargs h n Hwf Hnd Hok Hname)
    as (p & h1 & Hcall & _ & _ & Hpre & _ & _ & Hex & Hexo & Hview & _).
  pose proof (Hview l items Hcfg Hl 1) as Hv. cbn [view] in Hv. rewrite Hl in Hv.
  apply view_dict_inv in Hv as (c & items' & Hc & Hc' & Hkeys).
  assert (dict_keys items' = dict_keys items) as Hkeys'.
  { rewrite <- Hkeys. unfold dict_keys. rewrite <- list_fmap_compose.
    by apply list_fmap_ext. }
  destruct (extras_arg_wf (length h) kwargs Hnd Hok) as [Hexnd _].
  set (res := dict_update (dict_update [] items') (underscore <$> extras_arg kwargs)).
  exists p, h1, (h1 ++ [ODict res; ODict (underscore <$> extras_arg kwargs)]), res.
  split_and!.
  - done.
  - exact (config_with_extras_run p c (length h) items' (extras_arg kwargs) h1
             Hc Hex Hc' Hexo Hexnd).
  - by apply list_lookup_middle.
  - intros k. unfold res. rewrite !dict_keys_update, dict_keys_underscore, Hkeys'.
    rewrite list_elem_of_fmap. unfold dict_keys at 1. simpl. rewrite elem_of_nil.
    split.
    + intros [[[]|?]|(k' & -> & Hk')]; [by left |]. right. exists k'.
      by apply dict_keys_extras_arg in Hk'.
    + intros [?|(k' & -> & Hk')]; [by left; right |]. right. exists k'.
      split; [done |]. by apply dict_keys_extras_arg.
  - intros k v Hk1 Hk2 Hget. unfold res.
    rewrite dict_get_update by (by apply underscore_NoDup).
    rewrite dict_get_underscore, dict_get_extras_arg, decide_True by done.
    by rewrite Hget.
Qed.

Lemma EnvironmentPluginConfig_init_contract
    t (nm : string) (m : loc) (items : list (string * val)) (ex : val) h :
  store_wf h -> h !! m = Some (ODict items) ->
  exists p h',
    EnvironmentPluginConfig_init t (VStr nm) (VRef m) ex h = Ok p h' ∧
    h `prefix_of` h' ∧ store_wf h' ∧ val_ok (length h') (config p) ∧
    (forall d, view d h' (config p) = view d h (VRef m)) ∧
    (forall h'', (forall a, length h <= a < length h' -> h'' !! a = h' !! a) ->
                 forall d, view d h'' (config p) = view d h' (config p)).
Proof.
  intros Hwf Hm. pose proof (lookup_lt_Some _ _ _ Hm) as Hlt.
  destruct (or_empty_dict_contract h (VRef m) Hwf Hlt)
    as (c & h1 & Hor & Hpre1 & Hwf1 & Hc & Hview1).
  destruct (deepcopy_contract h1 c Hwf1 Hc)
    as (r & h' & Hdc & Hpre' & Hwf' & Hr & Hcopy & Hiso).
  unfold EnvironmentPluginConfig_init.
  rewrite (bind_ok _ _ _ _ _ Hor), (bind_ok _ _ _ _ _ Hdc).
  eexists _, h'. split; [reflexivity |]. cbn [config].
  pose proof (prefix_length _ _ Hpre1) as Hlen1.
  split_and!; [by etrans | done | done | |].
  - intros d. rewrite Hcopy. by eapply Hview1.
  - intros h'' Hag d. apply Hiso. intros a Ha. apply Hag. lia.
Qed.

(** X13. Two overrides built from one raw [config] mapping (a YAML anchor
    used by two plugins) share nothing: both read as the mapping read, the
    first still does whatever is done to the objects allocated after it was
    built (those of the second among them), and the second still does
    whatever is done to the objects that existed before it was built (the
    mapping and those of the first among them). *)
Theorem overrides_of_one_mapping_are_independent
    (t1 t2 : PluginType) (n1 n2 : string) (m : loc)
    (items : list (string * val)) (ex1 ex2 : val) h :
  store_wf h -> h !! m = Some (ODict items) ->
  exists p1 h1 p2 h2,
    EnvironmentPluginConfig_init t1 (VStr n1) (VRef m) ex1 h = Ok p1 h1 ∧
    EnvironmentPluginConfig_init t2 (VStr n2) (VRef m) ex2 h1 = Ok p2 h2 ∧
    (forall d, view d h2 (config p1) = view d h (VRef m)) ∧
    (forall d, view d h2 (config p2) = view d h (VRef m)) ∧
    (forall h'', (forall a, a < length h1 -> h'' !! a = h2 !! a) ->
                 forall d, view d h'' (config p1) = view d h (VRef m)) ∧
    (forall h'', (forall a, length h1 <= a < length h2 -> h'' !! a = h2 !! a) ->
                 forall d, view d h'' (config p2) = view d h (VRef m)).
Proof.
  intros Hwf Hm. pose proof (lookup_lt_Some _ _ _ Hm) as Hlt.
  destruct (EnvironmentPluginConfig_init_contract t1 n1 m items ex1 h Hwf Hm)
    as (p1 & h1 & Hinit1 & Hpre1 & Hwf1 & Hok1 & Hsame1 & _).
  destruct (EnvironmentPluginConfig_init_contract t2 n2 m items ex2 h1 Hwf1
              (prefix_lookup_Some _ _ _ _ Hm Hpre1))
    as (p2 & h2 & Hinit2 & Hpre2 & Hwf2 & Hok2 & Hsame2 & Hiso2).
  assert (forall d, view d h1 (VRef m) = view d h (VRef m)) as Hm1
    by (intros d; by apply view_prefix).
  exists p1, h1, p2, h2. split_and!; [done | done | | | |].
  - intros d. rewrite (view_prefix h1 h2) by done. apply Hsame1.
  - intros d. by rewrite Hsame2.
  - intros h'' Hag d. rewrite <- Hsame1. apply view_old; [done | | done].
    intros a Ha. rewrite Hag by done. symmetry. by apply prefix_lookup_lt.
  - intros h'' Hag d. rewrite (Hiso2 h'' Hag). by rewrite Hsame2.
Qed.

(** X14. The shape of the copy: the [config] of an override built from a
    mapping is a dict with the keys of the mapping, in their order; an item
    that held an atom holds the same atom, an item that held a dict or list
    holds an object allocated by the construction, and two items that held
    one object hold one copy of it. *)
Theorem copy_keeps_keys_atoms_and_sharing
    t (nm : string) (m : loc) (items : list (string * val)) (ex : val) h :
  store_wf h -> h !! m = Some (ODict items) ->
  exists p h' (c : loc) (items' : list (string * val)),
    EnvironmentPluginConfig_init t (VStr nm) (VRef m) ex h = Ok p h' ∧
    config p = VRef c ∧ h' !! c = Some (ODict items') ∧
    dict_keys items' = dict_keys items ∧
    Forall2 (fun kv kv' =>
               match kv.2 with
               | VRef _ => exists y, kv'.2 = VRef y ∧ length h <= y
               | atom => kv'.2 = atom
               end) items items' ∧
    (forall i j ki kj v vi vj,
        items !! i = Some (ki, v) -> items !! j = Some (kj, v) ->
        items' !! i = Some (ki, vi) -> items' !! j = Some (kj, vj) -> vi = vj).
Proof.
  intros Hwf Hm. pose proof (lookup_lt_Some _ _ _ Hm) as Hlt.
  unfold EnvironmentPluginConfig_init.
  destruct (decide (items = [])) as [->|Hne].
  - rewrite (bind_ok _ _ _ _ _ (or_empty_dict_empty _ _ Hm)).
    rewrite (bind_ok _ _ _ _ _ (deepcopy_new_empty_dict h)).
    eexists _, _, (S (length h)), []. split; [reflexivity |]. cbn [config].
    split_and!; [done | | done | constructor |].
    + change (h ++ [ODict []; ODict []]) with (h ++ [ODict []] ++ [ODict []]).
      rewrite app_assoc.
      replace (S (length h)) with (length (h ++ [ODict []]))
        by (rewrite length_app; simpl; lia).
      apply lookup_alloc.
    + intros i j ki kj v vi vj Hi. by rewrite lookup_nil in Hi.
  - rewrite (bind_ok _ _ _ _ _ (or_empty_dict_nonempty _ _ _ Hm Hne)).
    destruct (deepcopy_spec h (VRef m) Hwf Hlt)
      as (r & h' & memo & Hdc & Hpre & Hren & Hcp & _).
    rewrite (bind_ok _ _ _ _ _ Hdc). simpl in Hren.
    destruct (memo !! m) as [c|] eqn:Hc; [|done]. injection Hren as <-.
    destruct (Hcp m c Hc) as [_ (o & o' & Ho & Ho' & Hrel)]. simpl in Ho'.
    assert (o = ODict items) as -> by congruence.
    destruct o' as [items'|]; [|done]. simpl in Hrel.
    eexists _, h', c, items'. split; [reflexivity |]. cbn [config].
    split_and!; [done | done | | |].
    + symmetry. unfold dict_keys. eapply Forall2_fmap_eq; [exact Hrel |]. by intros ? ? [? _].
    + eapply Forall2_impl; [exact Hrel |]. intros [k v] [k' v'] [_ Hv]. simpl in *.
      destruct v as [| | | |b]; simpl in Hv; try (by injection Hv as <-).
      destruct (memo !! b) as [y|] eqn:Hb; [|done]. injection Hv as <-.
      exists y. split; [done |]. destruct (Hcp b y Hb) as [Hy _]. lia.
    + intros i j ki kj v vi vj Hi Hj Hi' Hj'.
      destruct (Forall2_lookup_lr _ _ _ _ _ _ Hrel Hi Hi') as [_ Hvi].
      destruct (Forall2_lookup_lr _ _ _ _ _ _ Hrel Hj Hj') as [_ Hvj].
      simpl in *. congruence.
Qed.
(** X15. The constructor does not check its [config] argument: given a
    value that is true for Python and is no dict (a non-empty list or
    string, a number), it builds the override without error, and it is
    [config_with_extras] that raises [TypeError], at every later call. *)
Theorem unchecked_config_fails_later t (nm : string) (v ex : val) h :
  store_wf h -> val_ok (length h) v ->
  truthy v h = Ok true h ->
  (forall l items, v = VRef l -> h !! l ≠ Some (ODict items)) ->
  exists p h',
    EnvironmentPluginConfig_init t (VStr nm) v ex h = Ok p h' ∧
    forall h'', h' `prefix_of` h'' ->
      config_with_extras p h''
      = Raise (TypeError "argument after ** must be a mapping").
Proof.
  intros Hwf Hv Htrue Hnd.
  destruct (deepcopy_spec h v Hwf Hv) as (r & h' & memo & Hdc & Hpre & Hren & Hcp & _).
  unfold EnvironmentPluginConfig_init.
  rewrite (bind_ok _ _ _ _ _ (or_empty_dict_truthy _ _ Htrue)).
  rewrite (bind_ok _ _ _ _ _ Hdc).
  eexists _, h'. split; [reflexivity |]. intros h'' Hpre''.
  unfold config_with_extras. cbn [config].
  rewrite (bind_ok _ _ _ _ _ (eq_refl : alloc (ODict []) h'' = Ok _ _)).
  apply bind_raise.
  destruct v as [| | | |l]; simpl in Hren; try (by injection Hren as <-).
  destruct (memo !! l) as [c|] eqn:Hc; [|done]. injection Hren as <-.
  destruct (Hcp l c Hc) as [_ (o & o' & Ho & Ho' & Hrel)]. simpl in Ho'.
  destruct o as [items|elems]; [by destruct (Hnd l items) |].
  destruct o' as [|elems']; [done |].
  unfold kwargs_of.
  assert ((h'' ++ [ODict []]) !! c = Some (OList elems')) as Hc''.
  { eapply prefix_lookup_Some; [exact Ho' |]. etrans; [exact Hpre'' |].
    by apply prefix_app_r. }
  by rewrite (bind_ok _ _ _ _ _ (deref_ok _ _ _ Hc'')).
Qed.
End Further.

(** ** Instances of the further properties *)

Lemma spec_store_wf : store_wf spec_store.
Proof. compute_done. Qed.

Lemma duplicate_config_run :
  EnvironmentConfig_init (VRef 6) duplicate_store
  = Ok {| plugins :=
            [((EXTRACTOR, "tap-csv"),
              {| plugin_type := EXTRACTOR; name := "tap-csv";
                 config := VRef 11; extras := VRef 10 |})] |}
       (duplicate_store ++
          [ODict []; ODict []; ODict []; ODict []; ODict [("path", VStr "/data")]]).
Proof. vm_compute. reflexivity. Qed.

Lemma falsy_config_becomes_empty_dict_witness :
  exists p h',
    EnvironmentPluginConfig_init EXTRACTOR (VStr "tap-csv") (VRef 0) VNone [OList []]
    = Ok p h' ∧
    config p = VRef 2 ∧ h' !! 2 = Some (ODict []).
Proof.
  destruct (falsy_config_becomes_empty_dict EXTRACTOR "tap-csv" (VRef 0) VNone
              [OList []] eq_refl)
    as (p & h' & Hinit & Hcfg & _ & Hobj & _).
  exists p, h'. split; [exact Hinit |]. split; [exact Hcfg | exact Hobj].
Defined.

Lemma plugins_argument_that_is_no_mapping_witness :
  EnvironmentConfig_init (PluginType := KnownPluginType) (VRef 0) list_store
  = Raise (AttributeError "items").
Proof.
  refine (plugins_argument_that_is_no_mapping (PluginType := KnownPluginType)
            (VRef 0) true list_store _ _).
  - reflexivity.
  - intros _ l items Hl. injection Hl as <-. discriminate.
Defined.

Lemma config_argument_that_is_no_mapping_witness :
  Environment_init (PluginType := KnownPluginType) "dev" (VRef 0) list_store
  = Raise (TypeError "argument after ** must be a mapping").
Proof.
  refine (config_argument_that_is_no_mapping (PluginType := KnownPluginType)
            "dev" (VRef 0) true list_store _ _).
  - reflexivity.
  - intros _ l items Hl. injection Hl as <-. discriminate.
Defined.

Lemma extras_share_the_values_of_the_spec_witness :
  exists p h' a items,
    EnvironmentPluginConfig_call EXTRACTOR spec_kwargs_example spec_store = Ok p h' ∧
    extras p = VRef a ∧ h' !! a = Some (ODict items) ∧
    dict_get "select" items = Some (VRef 2) ∧
    h' !! 2 = spec_store !! 2.
Proof.
  destruct (extras_share_the_values_of_the_spec EXTRACTOR spec_kwargs_example
              "tap-csv" spec_store spec_store_wf
              ltac:(compute_done) ltac:(compute_done) eq_refl)
    as (p & h' & a & items & Hcall & Hex & _ & Hobj & Hget & Hshare).
  assert (dict_get "select" items = Some (VRef 2)) as Hsel
    by (rewrite Hget; reflexivity).
  exists p, h', a, items. split; [exact Hcall |]. split; [exact Hex |].
  split; [exact Hobj |]. split; [exact Hsel |].
  exact (proj2 (proj2 (Hshare "select" 2 Hsel))).
Defined.

Lemma construction_leaves_its_input_alone_witness :
  view 4 (example_store ++ [ODict []; ODict [("a", VInt 1)]]) (VRef 4)
  = view 4 example_store (VRef 4).
Proof.
  refine (proj2 (construction_leaves_its_input_alone "dev" (VRef 4) _ example_store _
                   example_store_wf _ example_environment_run) 4 (VRef 4) _).
  - simpl. lia.
  - simpl. lia.
Defined.

Lemma lookup_finds_what_the_specs_resolve_to_witness :
  exists r,
    get_plugin_config
      {| env_name := "dev";
         env_config :=
           {| plugins :=
                [((EXTRACTOR, "tap-csv"),
                  {| plugin_type := EXTRACTOR; name := "tap-csv";
                     config := VRef 6; extras := VRef 5 |})] |} |}
      EXTRACTOR "tap-csv" [] = Ok r [] ∧
    is_Some r.
Proof.
  destruct (lookup_finds_what_the_specs_resolve_to "dev" 4 3 [("extractors", VRef 2)]
              _ example_store _ example_store_wf eq_refl eq_refl
              example_environment_run EXTRACTOR "tap-csv" [])
    as (r & Hr & Hfound).
  exists r. split; [exact Hr |]. apply Hfound. compute_done.
Defined.

Lemma index_counts_distinct_pairs_witness :
  exists cfg h',
    EnvironmentConfig_init (PluginType := KnownPluginType) (VRef 6) duplicate_store
    = Ok cfg h' ∧
    length (raw_specs duplicate_store [("extractors", VRef 3)]) = 2 ∧
    length (plugins cfg) = 1.
Proof.
  eexists _, _. split; [exact duplicate_config_run |]. split; [reflexivity |].
  rewrite (index_counts_distinct_pairs 6 [("extractors", VRef 3)] _ duplicate_store _
             duplicate_store_wf eq_refl duplicate_config_run).
  vm_compute. reflexivity.
Defined.





Lemma built_override_exposes_its_extras_witness :
  exists p h1 h2 res,
    EnvironmentPluginConfig_call EXTRACTOR spec_kwargs_example spec_store = Ok p h1 ∧
    config_with_extras p h1 = Ok (VRef (length h1)) h2 ∧
    h2 !! length h1 = Some (ODict res) ∧
    "path" ∈ dict_keys res ∧
    dict_get "_select" res = Some (VRef 2).
Proof.
  destruct (built_override_exposes_its_extras EXTRACTOR spec_kwargs_example "tap-csv"
              0 [("path", VStr "/data"); ("opts", VRef 1)] spec_store spec_store_wf
              ltac:(compute_done) ltac:(compute_done) eq_refl eq_refl eq_refl)
    as (p & h1 & h2 & res & Hcall & Hrun & Hres & Hkeys & Hvals).
  exists p, h1, h2, res. split; [exact Hcall |]. split; [exact Hrun |].
  split; [exact Hres |]. split.
  - apply Hkeys. left. compute_done.
  - apply (Hvals "select" (VRef 2)); [discriminate | discriminate | reflexivity].
Defined.

Lemma overrides_of_one_mapping_are_independent_witness :
  exists p1 h1 p2 h2,
    EnvironmentPluginConfig_init EXTRACTOR (VStr "tap-csv") (VRef 0) VNone spec_store
    = Ok p1 h1 ∧
    EnvironmentPluginConfig_init LOADER (VStr "target-csv") (VRef 0) VNone h1
    = Ok p2 h2 ∧
    view 3 h2 (config p1) = view 3 spec_store (VRef 0) ∧
    view 3 h2 (config p2) = view 3 spec_store (VRef 0).
Proof.
  destruct (overrides_of_one_mapping_are_independent EXTRACTOR LOADER
              "tap-csv" "target-csv" 0 [("path", VStr "/data"); ("opts", VRef 1)]
              VNone VNone spec_store spec_store_wf eq_refl)
    as (p1 & h1 & p2 & h2 & Hinit1 & Hinit2 & Hsame1 & Hsame2 & _).
  exists p1, h1, p2, h2. split; [exact Hinit1 |]. split; [exact Hinit2 |].
  split; [apply Hsame1 | apply Hsame2].
Defined.

Lemma copy_keeps_keys_atoms_and_sharing_witness :
  exists p h' c items',
    EnvironmentPluginConfig_init EXTRACTOR (VStr "tap-csv") (VRef 0) VNone spec_store
    = Ok p h' ∧
    config p = VRef c ∧ h' !! c = Some (ODict items') ∧
    dict_keys items' = ["path"; "opts"].
Proof.
  destruct (copy_keeps_keys_atoms_and_sharing EXTRACTOR "tap-csv" 0
              [("path", VStr "/data"); ("opts", VRef 1)] VNone spec_store
              spec_store_wf eq_refl)
    as (p & h' & c & items' & Hinit & Hc & Hobj & Hkeys & _).
  exists p, h', c, items'. split; [exact Hinit |]. split; [exact Hc |].
  split; [exact Hobj | exact Hkeys].
Defined.

Lemma unchecked_config_fails_later_witness :
  exists p h',
    EnvironmentPluginConfig_init EXTRACTOR (VStr "tap-csv") (VRef 0) VNone list_store
    = Ok p h' ∧
    config_with_extras p h' = Raise (TypeError "argument after ** must be a mapping").
Proof.
  destruct (unchecked_config_fails_later EXTRACTOR "tap-csv" (VRef 0) VNone list_store
              ltac:(compute_done) ltac:(compute_done) eq_refl)
    as (p & h' & Hinit & Hfail).
  { intros l items Hl. injection Hl as <-. discriminate. }
  exists p, h'. split; [exact Hinit |]. apply Hfail. reflexivity.
Defined.
